(** * HTML5TreeBuilder: the token-to-tree-builder adapter of lib/wt2html

    A shallow embedding of [lib/wt2html/HTML5TreeBuilder.js].  The adapter
    object ([this]) becomes a record that is threaded through a small
    state/exception/trace monad; [this.emit('token', ...)] appends an
    [Emit] event to the trace; a JavaScript [TypeError] becomes the
    completion [Throw TypeError].  Logging and resource accounting, which
    go to the environment, are left out.  The [Title] and [Namespace]
    classes of the second source file are embedded at the end, in the
    module [Title]. *)

From Stdlib Require Import ZArith List String Ascii Bool Lia DecimalString Sorted.
Import ListNotations.
Open Scope string_scope.
Open Scope Z_scope.
Open Scope list_scope.

Set Warnings "-register-all".

Set Implicit Arguments.

(** ** JavaScript values used by the adapter *)

(** A number slot of the metadata bag: an integer, [NaN], or [undefined]. *)
Inductive JsNum := Num (z : Z) | NaN | Undefined.

(** [x - n] for an integer literal [n]. *)
Definition js_sub (x : JsNum) (n : Z) : JsNum :=
  match x with
  | Num z => Num (z - n)
  | NaN | Undefined => NaN
  end.

(** The line feed, written ['\n'] in the source. *)
Definition nl : string := String "010"%char EmptyString.

(** [data[0] === '\n'] *)
Definition starts_with_nl (data : string) : bool :=
  match data with
  | String c _ => Ascii.eqb c "010"%char
  | EmptyString => false
  end.

(** Decimal printing of an integer, as in [name + ":" + id]. *)
Definition Z_toString (z : Z) : string := NilZero.string_of_int (Z.to_int z).

(** ** Tokens

    Modelled from the spec: the token constructors are declared in
    [parser.defines.js], which is not among the sources.  The spec's token
    is one of Text, NewlineBreak, OpenTag, SelfClosingTag, CloseTag, Comment
    and EndOfStream; tags carry a name, an ordered list of (key, value)
    pairs and a metadata bag.  [OtherTk] stands for any object of another
    constructor, which the [switch] of [processToken] sends to its
    [default] case. *)

(** The scratch map [dataAttribs.tmp]. *)
Record Tmp := mkTmp {
  tmp_inTransclusion : bool;          (* present and true, or absent *)
  tmp_tagId : option Z                (* absent until assigned *)
}.

(** The metadata bag [dataAttribs]: the entries that the adapter reads or
    writes, and the others ([rest]) which it only carries along. *)
Record DataAttribs_of (T : Type) := mkDA {
  tsr : option (JsNum * JsNum);       (* source range [start, end] *)
  endpos : JsNum;
  stx : option string;
  autoInsertedEnd : bool;
  tmp : option Tmp;
  tokens : option (list T);           (* constituents of an empty-line meta *)
  rest : list (string * string)
}.

(** An attribute value: a string, an array of tokens (the [content] of an
    html [pre]), or the string [JSON.stringify(dataAttribs)], which is kept
    as the bag it serializes. *)
Inductive AttrVal_of (T : Type) :=
| VStr (s : string)
| VToks (ts : list T)
| VJson (da : DataAttribs_of T).

Arguments VStr {T} s.
Arguments VToks {T} ts.
Arguments VJson {T} da.

Record KV_of (T : Type) := mkKV { k : string; v : AttrVal_of T }.

Inductive Token :=
| StringTk (s : string)
| NlTk
| TagTk (name : string) (attribs : list (KV_of Token))
        (dataAttribs : DataAttribs_of Token)
| SelfclosingTagTk (name : string) (attribs : list (KV_of Token))
        (dataAttribs : DataAttribs_of Token)
| EndTagTk (name : string) (attribs : list (KV_of Token))
        (dataAttribs : DataAttribs_of Token)
| CommentTk (value : string)
| EOFTk
| OtherTk.

Definition DataAttribs := DataAttribs_of Token.
Definition AttrVal := AttrVal_of Token.
Definition KV := KV_of Token.

Definition KV_ (key : string) (val : AttrVal) : KV := mkKV key val.

(** [{}] *)
Definition emptyDataAttribs : DataAttribs :=
  mkDA None Undefined None false None None [].

(** [{ tmp: {} }] *)
Definition freshDataAttribs : DataAttribs :=
  mkDA None Undefined None false (Some (mkTmp false None)) None [].

Definition set_tsr (x : option (JsNum * JsNum)) (d : DataAttribs) : DataAttribs :=
  mkDA x (endpos d) (stx d) (autoInsertedEnd d) (tmp d) (tokens d) (rest d).
Definition set_endpos (x : JsNum) (d : DataAttribs) : DataAttribs :=
  mkDA (tsr d) x (stx d) (autoInsertedEnd d) (tmp d) (tokens d) (rest d).
Definition set_stx (x : option string) (d : DataAttribs) : DataAttribs :=
  mkDA (tsr d) (endpos d) x (autoInsertedEnd d) (tmp d) (tokens d) (rest d).
Definition set_tmp (x : option Tmp) (d : DataAttribs) : DataAttribs :=
  mkDA (tsr d) (endpos d) (stx d) (autoInsertedEnd d) x (tokens d) (rest d).

(** [dataAttribs.tmp], once line 145 has made sure that it exists. *)
Definition the_tmp (d : DataAttribs) : Tmp :=
  match tmp d with
  | Some t => t
  | None => mkTmp false None
  end.

Definition is_TagTk (t : Token) : bool :=
  match t with TagTk _ _ _ => true | _ => false end.
Definition is_SelfclosingTagTk (t : Token) : bool :=
  match t with SelfclosingTagTk _ _ _ => true | _ => false end.
Definition is_String (t : Token) : bool :=
  match t with StringTk _ => true | _ => false end.
Definition is_NlTk (t : Token) : bool :=
  match t with NlTk => true | _ => false end.

(** [token.attribs] and [token.dataAttribs]; [None] is [undefined]. *)
Definition token_attribs (t : Token) : option (list KV) :=
  match t with
  | TagTk _ a _ | SelfclosingTagTk _ a _ | EndTagTk _ a _ => Some a
  | _ => None
  end.

Definition token_dataAttribs (t : Token) : option DataAttribs :=
  match t with
  | TagTk _ _ d | SelfclosingTagTk _ _ d | EndTagTk _ _ d => Some d
  | _ => None
  end.

(** [x || y] on a slot that holds an object or [undefined]. *)
Definition js_or {A : Type} (x : option A) (y : A) : A :=
  match x with
  | Some a => a
  | None => y
  end.

(** Modelled from the spec: [getAttribute] is a method of the token classes
    of [parser.defines.js], not among the sources.  The attributes are an
    ordered sequence of (key, value) pairs whose keys need not be unique;
    the value of the first pair with the key is returned, [None] (the
    source's [null]) when there is none. *)
Fixpoint lookup (attribs : list KV) (name : string) : option AttrVal :=
  match attribs with
  | [] => None
  | a :: attribs' => if String.eqb (k a) name then Some (v a) else lookup attribs' name
  end.

Definition getAttribute (t : Token) (name : string) : option AttrVal :=
  lookup (js_or (token_attribs t) []) name.

(** [x === s] for a string literal [s].  A serialized bag begins with an
    opening brace and equals none of the literals compared with. *)
Definition strict_eq (x : option AttrVal) (s : string) : bool :=
  match x with
  | Some (VStr s') => String.eqb s' s
  | _ => false
  end.

(** Truthiness of an attribute value or [null]. *)
Definition js_truthy (x : option AttrVal) : bool :=
  match x with
  | None => false
  | Some (VStr s) => negb (String.eqb s "")
  | Some (VToks _) => true
  | Some (VJson _) => true
  end.

(** ** The regular expressions of [processToken] *)

Definition is_letter (c : ascii) : bool :=
  (Ascii.leb "a" c && Ascii.leb c "z") || (Ascii.leb "A" c && Ascii.leb c "Z").

Definition is_digit (c : ascii) : bool :=
  Ascii.leb "0" c && Ascii.leb c "9".

(** The class [\w]. *)
Definition is_word (c : ascii) : bool :=
  is_letter c || is_digit c || Ascii.eqb c "_".

(** [\b] between a character [prev] and the remaining input. *)
Definition word_boundary (prev : ascii) (s : string) : bool :=
  xorb (is_word prev)
       (match s with
        | String c _ => is_word c
        | EmptyString => false
        end).

(** What is left of [s] once the literal [p] has been read off its start. *)
Fixpoint strip_prefix (p s : string) : option string :=
  match p, s with
  | EmptyString, _ => Some s
  | String a p', String b s' => if Ascii.eqb a b then strip_prefix p' s' else None
  | String _ _, EmptyString => None
  end.

(** A literal that ends in a word character, followed by [\b]. *)
Definition literal_then_boundary (lit : string) (last : ascii) (s : string) : bool :=
  match strip_prefix lit s with
  | Some s' => word_boundary last s'
  | None => false
  end.

(** [/^mw:html$/] *)
Definition re_mw_html (s : string) : bool := String.eqb s "mw:html".

(** [/^mw:Transclusion/] *)
Definition re_Transclusion_prefix (s : string) : bool := prefix "mw:Transclusion" s.

(** [/^mw:Transclusion$/] *)
Definition re_Transclusion_exact (s : string) : bool := String.eqb s "mw:Transclusion".

(** [/^mw:(Extension\/ref\/Marker|Includes\/(OnlyInclude|IncludeOnly|NoInclude))\b/] *)
Definition re_fosterable_typeof (s : string) : bool :=
  literal_then_boundary "mw:Extension/ref/Marker" "r" s
  || literal_then_boundary "mw:Includes/OnlyInclude" "e" s
  || literal_then_boundary "mw:Includes/IncludeOnly" "y" s
  || literal_then_boundary "mw:Includes/NoInclude" "e" s.

(** Any number of letters [a-zA-Z] after [prev], then [\b]. *)
Fixpoint letters_then_boundary (prev : ascii) (s : string) : bool :=
  word_boundary prev s
  || match s with
     | String c s' => is_letter c && letters_then_boundary c s'
     | EmptyString => false
     end.

(** The pattern tested on [property]: anchored at the start, the group
    [mw:PageProp\/] with any number of letters [a-zA-Z], then [\b]. *)
Definition re_PageProp (s : string) : bool :=
  match strip_prefix "mw:PageProp/" s with
  | Some s' => letters_then_boundary "/" s'
  | None => false
  end.

(** The text that [RegExp.prototype.test] sees when it is handed an
    attribute value or [null].  The patterns tested all begin with [^mw:]
    and contain no comma, so of an array only its first element and the
    comma after it can matter.  [None] is a text that cannot begin with
    [mw:]: a serialized bag, or an array whose first element is a token
    object (printed by [parser.defines.js], not among the sources, and
    taken not to begin with [mw:]). *)
Definition text_tested (x : option AttrVal) : option string :=
  match x with
  | None => Some "null"
  | Some (VStr s) => Some s
  | Some (VJson _) => None
  | Some (VToks []) => Some ""
  | Some (VToks [StringTk s]) => Some s
  | Some (VToks (StringTk s :: _ :: _)) => Some (s ++ ",")%string
  | Some (VToks (_ :: _)) => None
  end.

(** [re.test(x)] *)
Definition js_test (re : string -> bool) (x : option AttrVal) : bool :=
  match text_tested x with
  | Some s => re s
  | None => false
  end.

(** Modelled from the spec: [SanitizerConstants.XMLNS_ATTRIBUTE_RE] is
    declared in [tt/Sanitizer.js], not among the sources; it recognises the
    XML namespace declarations that the sanitizer lets through.  The pattern
    taken is [/^xmlns:[:A-Z_a-z-.0-9]+$/]. *)
Definition is_xmlns_char (c : ascii) : bool :=
  is_letter c || is_digit c
  || Ascii.eqb c ":" || Ascii.eqb c "_" || Ascii.eqb c "-" || Ascii.eqb c ".".

Fixpoint all_chars (p : ascii -> bool) (s : string) : bool :=
  match s with
  | EmptyString => true
  | String c s' => p c && all_chars p s'
  end.

Definition XMLNS_ATTRIBUTE_RE (key : string) : bool :=
  match strip_prefix "xmlns:" key with
  | Some EmptyString => false
  | Some s' => all_chars is_xmlns_char s'
  | None => false
  end.

(** Modelled from the spec: [Util.isVoidElement] is declared in
    [utils/Util.js], not among the sources; the spec speaks of the small
    fixed set of void elements, taken here as the void elements of HTML5. *)
Definition VoidTags : list string :=
  ["area"; "base"; "br"; "col"; "command"; "embed"; "hr"; "img"; "input";
   "keygen"; "link"; "meta"; "param"; "source"; "track"; "wbr"].

Definition isVoidElement (name : string) : bool :=
  existsb (String.eqb name) VoidTags.

(** Modelled from the spec: [Util.isEmptyLineMetaToken] is declared in
    [utils/Util.js], not among the sources; it recognises the self-closing
    [meta] that stands for a collapsed empty line, whose constituents are
    stored in the [tokens] entry of its metadata bag. *)
Definition isEmptyLineMetaToken (t : Token) : bool :=
  match t with
  | SelfclosingTagTk name _ _ =>
      String.eqb name "meta" && strict_eq (getAttribute t "typeof") "mw:EmptyLine"
  | _ => false
  end.

(** ** Commands for the tree builder *)

(** An attribute in the tree builder's format. *)
Record DomAttr := mkDomAttr {
  nodeName : string;
  nodeValue : AttrVal;
  namespaceURI : option string
}.

(** [{ nodeName: n, nodeValue: s }] for a string literal [s]. *)
Definition attr_ (n s : string) : DomAttr := mkDomAttr n (VStr s) None.

(** The text of a comment: a literal, or
    [JSON.stringify({ "@type": ty, attrs: attrs })], kept as the object
    that is serialized. *)
Inductive CommentData :=
| CText (s : string)
| CStringify (at_type : AttrVal) (attrs : list DomAttr).

(** The objects emitted as ['token'] events. *)
Inductive HtmlToken :=
| Characters (data : string)
| StartTag (name : string) (self_closing : bool) (data : list DomAttr)
| EndTag (name : string) (data : option (list DomAttr))
| Comment (data : CommentData)
| EOF.

(** [TreeBuilder.prototype._att] *)
Definition _att (maybeAttribs : list KV) : list DomAttr :=
  map (fun attr =>
         mkDomAttr (k attr) (v attr)
           (if XMLNS_ATTRIBUTE_RE (k attr)
            then Some "http://www.w3.org/2000/xmlns/"
            else None))
      maybeAttribs.

(** ** The adapter object *)

Record TreeBuilder := mkTreeBuilder {
  tagId : Z;
  inTransclusion : bool;
  precededByPre : bool;               (* written by resetState only *)
  tableDepth : Z;
  haveTransclusionShadow : bool;
  preceededByPre : bool;              (* read and written by processToken *)
  lastToken : option Token
}.

Definition set_tagId (x : Z) (t : TreeBuilder) : TreeBuilder :=
  mkTreeBuilder x (inTransclusion t) (precededByPre t) (tableDepth t)
    (haveTransclusionShadow t) (preceededByPre t) (lastToken t).
Definition set_inTransclusion (x : bool) (t : TreeBuilder) : TreeBuilder :=
  mkTreeBuilder (tagId t) x (precededByPre t) (tableDepth t)
    (haveTransclusionShadow t) (preceededByPre t) (lastToken t).
Definition set_precededByPre (x : bool) (t : TreeBuilder) : TreeBuilder :=
  mkTreeBuilder (tagId t) (inTransclusion t) x (tableDepth t)
    (haveTransclusionShadow t) (preceededByPre t) (lastToken t).
Definition set_tableDepth (x : Z) (t : TreeBuilder) : TreeBuilder :=
  mkTreeBuilder (tagId t) (inTransclusion t) (precededByPre t) x
    (haveTransclusionShadow t) (preceededByPre t) (lastToken t).
Definition set_haveTransclusionShadow (x : bool) (t : TreeBuilder) : TreeBuilder :=
  mkTreeBuilder (tagId t) (inTransclusion t) (precededByPre t) (tableDepth t)
    x (preceededByPre t) (lastToken t).
Definition set_preceededByPre (x : bool) (t : TreeBuilder) : TreeBuilder :=
  mkTreeBuilder (tagId t) (inTransclusion t) (precededByPre t) (tableDepth t)
    (haveTransclusionShadow t) x (lastToken t).
Definition set_lastToken (x : option Token) (t : TreeBuilder) : TreeBuilder :=
  mkTreeBuilder (tagId t) (inTransclusion t) (precededByPre t) (tableDepth t)
    (haveTransclusionShadow t) (preceededByPre t) x.

(** ** The monad: adapter state, exceptions, and a trace of events *)

Inductive Event :=
| Call (token : Token)                (* processToken(token) is entered *)
| SetTagId (token : Token) (id : Z)   (* dataAttribs.tmp.tagId = id *)
| Emit (tk : HtmlToken).              (* this.emit('token', tk) *)

Inductive JsError := TypeError.

Inductive Completion (A : Type) :=
| Normal (a : A)
| Throw (e : JsError)
| OutOfFuel.

Arguments Normal {A} a.
Arguments Throw {A} e.
Arguments OutOfFuel {A}.

Record Outcome (A : Type) := mkOutcome {
  completion : Completion A;
  this_after : TreeBuilder;
  trace : list Event
}.

Definition M (A : Type) : Type := TreeBuilder -> Outcome A.

Definition ret {A : Type} (a : A) : M A :=
  fun this => mkOutcome (Normal a) this [].

Definition bind {A B : Type} (m : M A) (f : A -> M B) : M B :=
  fun this =>
    let r := m this in
    match completion r with
    | Normal a =>
        let r' := f a (this_after r) in
        mkOutcome (completion r') (this_after r') (trace r ++ trace r')
    | Throw e => mkOutcome (Throw e) (this_after r) (trace r)
    | OutOfFuel => mkOutcome OutOfFuel (this_after r) (trace r)
    end.

Declare Scope tb_scope.
Delimit Scope tb_scope with tb.
Notation "x <- c1 ;; c2" := (bind c1 (fun x => c2))
  (at level 61, c1 at next level, right associativity) : tb_scope.
Notation "c1 ;; c2" := (bind c1 (fun _ => c2))
  (at level 61, right associativity) : tb_scope.
Open Scope tb_scope.

Definition get : M TreeBuilder := fun this => mkOutcome (Normal this) this [].
Definition modify (f : TreeBuilder -> TreeBuilder) : M unit :=
  fun this => mkOutcome (Normal tt) (f this) [].
Definition log (e : Event) : M unit :=
  fun this => mkOutcome (Normal tt) this [e].
Definition emit (tk : HtmlToken) : M unit := log (Emit tk).
Definition throw {A : Type} (e : JsError) : M A :=
  fun this => mkOutcome (Throw e) this [].
Definition out_of_fuel {A : Type} : M A :=
  fun this => mkOutcome OutOfFuel this [].
Definition when (b : bool) (m : M unit) : M unit :=
  if b then m else ret tt.

(** [x.match(re)] as a condition, for the patterns above, which begin with
    [^mw:]: [null] and arrays have no [match] method. *)
Definition js_match (re : string -> bool) (x : option AttrVal) : M bool :=
  match x with
  | Some (VStr s) => ret (re s)
  | Some (VJson _) => ret false
  | Some (VToks _) | None => throw TypeError
  end.

(** [toks.unshift(t)]: only an array has the method. *)
Definition js_unshift (toks : option AttrVal) (t : Token) : M (list Token) :=
  match toks with
  | Some (VToks ts) => ret (t :: ts)
  | _ => throw TypeError
  end.

(** The value left in [toks] by the filter callback of line 240: that of
    the last [content] attribute. *)
Fixpoint last_content (attribs : list KV) (toks : option AttrVal) : option AttrVal :=
  match attribs with
  | [] => toks
  | attr :: attribs' =>
      last_content attribs' (if String.eqb (k attr) "content" then Some (v attr) else toks)
  end.

(** The loop of [onChunk], over a given [processToken]. *)
Fixpoint forEach (processToken : Token -> M unit) (tokens : list Token) : M unit :=
  match tokens with
  | [] => ret tt
  | token :: tokens' => processToken token ;; forEach processToken tokens'
  end.

(** The shadow marker emitted after text inside a table in a transclusion. *)
Definition TransclusionShadow : HtmlToken :=
  StartTag "meta" false [attr_ "typeof" "mw:TransclusionShadow"].

(** The foster box emitted before a table. *)
Definition FosterBox : HtmlToken :=
  StartTag "table" true [attr_ "typeof" "mw:FosterBox"].

(** *** [TreeBuilder.prototype.processToken]

    The function is given in the order of its text: the lines before the
    [switch], one definition for each [case] that does more than a single
    call, the lines after the [switch], and then the function itself. *)

(** Lines 142-161: the attribute list and the metadata bag of the token,
    the tag id, and the [data-parsoid] attribute. *)
Definition prelude (token : Token) : M (list KV * DataAttribs) :=
  log (Call token) ;;
  this <- get ;;
  let attribs := js_or (token_attribs token) [] in
  let dataAttribs := js_or (token_dataAttribs token) freshDataAttribs in
  let dataAttribs := set_tmp (Some (the_tmp dataAttribs)) dataAttribs in
  let dataAttribs :=
    if inTransclusion this
    then set_tmp (Some (mkTmp true (tmp_tagId (the_tmp dataAttribs)))) dataAttribs
    else dataAttribs in
  (* Assign tagId to open/self-closing tags *)
  dataAttribs <-
    (if is_TagTk token || is_SelfclosingTagTk token
     then modify (set_tagId (tagId this + 1)) ;;
          log (SetTagId token (tagId this)) ;;
          ret (set_tmp (Some (mkTmp (tmp_inTransclusion (the_tmp dataAttribs))
                                    (Some (tagId this)))) dataAttribs)
     else ret dataAttribs) ;;
  (* Always insert data-parsoid *)
  ret (attribs ++ [KV_ "data-parsoid" (VJson dataAttribs)], dataAttribs).

(** [case String: case NlTk:] *)
Definition case_String (token : Token) : M unit :=
  let data := match token with StringTk s => s | _ => nl end in
  this <- get ;;
  let data := if preceededByPre this && starts_with_nl data
              then (nl ++ data)%string else data in
  emit (Characters data) ;;
  when (inTransclusion this && (0 <? tableDepth this)
        && is_String token && negb (haveTransclusionShadow this))
    (emit TransclusionShadow ;;
     modify (set_haveTransclusionShadow true)).

(** The payload of the shadow comment of an open tag. *)
Definition open_shadow (tName : string) (dataAttribs : DataAttribs) : CommentData :=
  CStringify (VStr "mw:shadow")
    [ attr_ "typeof" "mw:StartTag";
      attr_ "data-stag"
        (tName ++ ":" ++ match tmp_tagId (the_tmp dataAttribs) with
                         | Some id => Z_toString id
                         | None => "undefined"
                         end)%string;
      mkDomAttr "data-parsoid" (VJson dataAttribs) None ].

(** [case TagTk:] *)
Definition case_TagTk (tName : string) (attribs : list KV)
    (dataAttribs : DataAttribs) : M unit :=
  when (String.eqb tName "table")
    (modify (fun this => set_tableDepth (tableDepth this + 1) this) ;;
     this <- get ;;
     (* Don't add foster box in transclusion *)
     when (negb (inTransclusion this)) (emit FosterBox)) ;;
  emit (StartTag tName false (_att attribs)) ;;
  emit (Comment (open_shadow tName dataAttribs)).

(** [case SelfclosingTagTk:], over the [onChunk] that it calls. *)
Definition case_SelfclosingTagTk (onChunk : list Token -> M unit)
    (token : Token) (tName : string) (attribs : list KV)
    (dataAttribs : DataAttribs) : M unit :=
  (* Re-expand an empty-line meta-token *)
  if isEmptyLineMetaToken token
  then
    match tokens dataAttribs with
    | Some toks => onChunk toks
    | None => throw TypeError
    end
  else
    let tProperty := getAttribute token "property" in
    unpack <- (if String.eqb tName "pre" && js_truthy tProperty
               then js_match re_mw_html tProperty
               else ret false) ;;
    if unpack
    then
      (* Unpack pre tags. *)
      let toks := last_content attribs None in
      let attribs :=
        filter (fun attr => negb (String.eqb (k attr) "content")
                            && negb (String.eqb (k attr) "property"))
               attribs in
      let endpos_ := endpos dataAttribs in
      let dataAttribs := set_endpos Undefined dataAttribs in
      let tsr_ := tsr dataAttribs in
      let dataAttribs :=
        match tsr_ with
        | Some (tsr0, _) => set_tsr (Some (tsr0, endpos_)) dataAttribs
        | None => dataAttribs
        end in
      let dataAttribs := set_stx (Some "html") dataAttribs in
      toks <- js_unshift toks (TagTk "pre" attribs dataAttribs) ;;
      let dataAttribs := set_stx (Some "html") emptyDataAttribs in
      let dataAttribs :=
        match tsr_ with
        | Some (_, tsr1) => set_tsr (Some (js_sub tsr1 6, tsr1)) dataAttribs
        | None => dataAttribs
        end in
      let toks := toks ++ [EndTagTk "pre" [] dataAttribs] in
      onChunk toks
    else
      let generic :=
        let newAttrs := _att attribs in
        emit (StartTag tName false newAttrs) ;;
        when (negb (isVoidElement tName))
          (emit (EndTag tName (Some newAttrs))) in
      if String.eqb tName "meta"
      then
        (* Convert mw metas to comments to avoid fostering. *)
        let tTypeOf := getAttribute token "typeof" in
        let shouldFoster := js_test re_fosterable_typeof tTypeOf in
        let shouldFoster :=
          if negb shouldFoster
          then js_test re_PageProp (getAttribute token "property")
          else shouldFoster in
        if negb shouldFoster
        then
          (* transclusions state *)
          isTransclusion <- js_match re_Transclusion_prefix tTypeOf ;;
          when isTransclusion
            (modify (set_inTransclusion (js_test re_Transclusion_exact tTypeOf))) ;;
          emit (Comment (CStringify (js_or tTypeOf (VStr "")) (_att attribs)))
        else generic
      else generic.

(** The payload of the shadow comment of a close tag. *)
Definition close_shadow (tName : string) (attribs : list KV)
    (dataAttribs : DataAttribs) : CommentData :=
  CStringify (VStr "mw:shadow")
    (_att attribs ++
     [ attr_ "typeof" "mw:EndTag";
       attr_ "data-etag" tName;
       mkDomAttr "data-parsoid" (VJson dataAttribs) None ]).

(** [case EndTagTk:] *)
Definition case_EndTagTk (tName : string) (attribs : list KV)
    (dataAttribs : DataAttribs) : M unit :=
  this <- get ;;
  when (String.eqb tName "table" && (0 <? tableDepth this))
    (modify (set_tableDepth (tableDepth this - 1))) ;;
  emit (EndTag tName None) ;;
  when (negb (autoInsertedEnd dataAttribs))
    (emit (Comment (close_shadow tName attribs dataAttribs))).

(** Lines 338-361: the flags kept from one token to the next. *)
Definition epilogue (token : Token) : M unit :=
  (* a non-string non-nl token breaks a run of string+nl content *)
  when (negb (is_String token) && negb (is_NlTk token))
    (modify (set_haveTransclusionShadow false)) ;;
  (* Keep track of preceeding by pre *)
  (match token with
   | TagTk tName _ _ =>
       if String.eqb tName "pre"
       then modify (set_preceededByPre true)
       else if String.eqb tName "span"
               && strict_eq (getAttribute token "typeof") "mw:Nowiki"
       then ret tt
       else modify (set_preceededByPre false)
   | _ => modify (set_preceededByPre false)
   end) ;;
  (* Store the last token *)
  modify (set_lastToken (Some token)).

(** The recursion through [onChunk] is bounded by [fuel]; [enough_fuel]
    below shows that more fuel than the token nests expansions always
    suffices. *)
Fixpoint processToken (fuel : nat) (token : Token) : M unit :=
  match fuel with
  | O => out_of_fuel
  | S fuel' =>
      p <- prelude token ;;
      let attribs := fst p in
      let dataAttribs := snd p in
      (match token with
       | StringTk _ | NlTk => case_String token
       | TagTk tName _ _ => case_TagTk tName attribs dataAttribs
       | SelfclosingTagTk tName _ _ =>
           case_SelfclosingTagTk (forEach (processToken fuel'))
             token tName attribs dataAttribs
       | EndTagTk tName _ _ => case_EndTagTk tName attribs dataAttribs
       | CommentTk value => emit (Comment (CText value))
       | EOFTk => emit EOF
       | OtherTk => ret tt
       end) ;;
      epilogue token
  end.

(** [TreeBuilder.prototype.onChunk] *)
Definition onChunk (fuel : nat) (tokens : list Token) : M unit :=
  forEach (processToken fuel) tokens.

(** [TreeBuilder.prototype.resetState].  Setting up and restarting the
    html5 tree builder and dropping the document element happen outside the
    adapter's own state; the [body] token never recurses, so a fuel of one
    is all that its processing uses. *)
Definition resetState : M unit :=
  modify (set_tagId 1) ;;
  modify (set_inTransclusion false) ;;
  modify (set_precededByPre false) ;;
  modify (set_tableDepth 0) ;;
  modify (set_haveTransclusionShadow false) ;;
  processToken 1 (TagTk "body" [] emptyDataAttribs).

(** The object as the constructor finds it, before its call of
    [resetState]: [preceededByPre] and [lastToken] are [undefined], and the
    other fields are assigned by [resetState] before they are read. *)
Definition blank : TreeBuilder := mkTreeBuilder 0 false false 0 false false None.

(** [new TreeBuilder(env)] *)
Definition newTreeBuilder : TreeBuilder := this_after (resetState blank).

(** ** Reading a trace *)

(** The commands issued to the tree builder. *)
Fixpoint emitted (tr : list Event) : list HtmlToken :=
  match tr with
  | [] => []
  | Emit tk :: tr' => tk :: emitted tr'
  | _ :: tr' => emitted tr'
  end.

(** The tag ids handed out, with the tokens that got them. *)
Fixpoint assigned (tr : list Event) : list (Token * Z) :=
  match tr with
  | [] => []
  | SetTagId t id :: tr' => (t, id) :: assigned tr'
  | _ :: tr' => assigned tr'
  end.

(** The tokens that [processToken] was called on. *)
Fixpoint calls (tr : list Event) : list Token :=
  match tr with
  | [] => []
  | Call t :: tr' => t :: calls tr'
  | _ :: tr' => calls tr'
  end.

(** The nesting of expansions in a token: how many times [processToken]
    can call [onChunk] on the way down into it. *)
Fixpoint depth (t : Token) : nat :=
  match t with
  | SelfclosingTagTk _ attribs da =>
      S (Nat.max
           (match tokens da with
            | Some ts => list_max (map depth ts)
            | None => 0%nat
            end)
           (list_max
              (map (fun attr => match v attr with
                                | VToks ts => list_max (map depth ts)
                                | _ => 0%nat
                                end)
                   attribs)))
  | _ => 0%nat
  end.

(** * Properties *)

(** ** The monad *)

Lemma bind_Normal {A B : Type} (m : M A) (f : A -> M B) this a :
  completion (m this) = Normal a ->
  bind m f this =
  mkOutcome (completion (f a (this_after (m this))))
            (this_after (f a (this_after (m this))))
            (trace (m this) ++ trace (f a (this_after (m this)))).
Proof. unfold bind. intros ->. reflexivity. Qed.

Lemma bind_Throw {A B : Type} (m : M A) (f : A -> M B) this e :
  completion (m this) = Throw e ->
  bind m f this = mkOutcome (Throw e) (this_after (m this)) (trace (m this)).
Proof. unfold bind. intros ->. reflexivity. Qed.

Lemma bind_OutOfFuel {A B : Type} (m : M A) (f : A -> M B) this :
  completion (m this) = OutOfFuel ->
  bind m f this = mkOutcome OutOfFuel (this_after (m this)) (trace (m this)).
Proof. unfold bind. intros ->. reflexivity. Qed.

Lemma bind_assoc {A B C : Type} (m : M A) (f : A -> M B) (g : B -> M C) this :
  bind (bind m f) g this = bind m (fun a => bind (f a) g) this.
Proof.
  unfold bind. destruct (m this) as [[a|e|] s1 tr1]; simpl; try reflexivity.
  destruct (f a s1) as [[b|e|] s2 tr2]; simpl; try reflexivity.
  rewrite app_assoc. reflexivity.
Qed.

Lemma bind_ext {A B : Type} (m : M A) (f g : A -> M B) this :
  (forall a s, f a s = g a s) -> bind m f this = bind m g this.
Proof.
  intros H. unfold bind. destruct (completion (m this)); try reflexivity.
  rewrite H. reflexivity.
Qed.

Lemma bind_trace_prefix {A B : Type} (m : M A) (f : A -> M B) this :
  exists rest, trace (bind m f this) = trace (m this) ++ rest.
Proof.
  unfold bind. destruct (completion (m this)); simpl.
  - eexists. reflexivity.
  - exists []. rewrite app_nil_r. reflexivity.
  - exists []. rewrite app_nil_r. reflexivity.
Qed.


Lemma assigned_app tr1 tr2 : assigned (tr1 ++ tr2) = assigned tr1 ++ assigned tr2.
Proof.
  induction tr1 as [|e tr1 IH]; simpl; [reflexivity|].
  destruct e; simpl; rewrite IH; reflexivity.
Qed.

Lemma calls_app tr1 tr2 : calls (tr1 ++ tr2) = calls tr1 ++ calls tr2.
Proof.
  induction tr1 as [|e tr1 IH]; simpl; [reflexivity|].
  destruct e; simpl; rewrite IH; reflexivity.
Qed.

(** ** Relations between the state before, the trace, and the state after

    A relation that holds of the empty step and composes along the trace is
    carried through [bind]; the lemmas of this section carry it through the
    parts of [processToken] that do not depend on the relation. *)
Section Preserves.

Variable R : TreeBuilder -> list Event -> TreeBuilder -> Prop.

Definition preserves {A : Type} (m : M A) : Prop :=
  forall this, R this (trace (m this)) (this_after (m this)).

Hypothesis R_nil : forall this, R this [] this.
Hypothesis R_app : forall s0 tr1 s1 tr2 s2,
    R s0 tr1 s1 -> R s1 tr2 s2 -> R s0 (tr1 ++ tr2) s2.

Lemma preserves_ret {A : Type} (a : A) : preserves (ret a).
Proof. intro this. apply R_nil. Qed.

Lemma preserves_throw {A : Type} e : preserves (@throw A e).
Proof. intro this. apply R_nil. Qed.

Lemma preserves_out_of_fuel {A : Type} : preserves (@out_of_fuel A).
Proof. intro this. apply R_nil. Qed.

Lemma preserves_get : preserves get.
Proof. intro this. apply R_nil. Qed.

Lemma preserves_bind {A B : Type} (m : M A) (f : A -> M B) :
  preserves m -> (forall a, preserves (f a)) -> preserves (bind m f).
Proof.
  intros Hm Hf this. unfold bind.
  destruct (completion (m this)) as [a| |] eqn:E; simpl; [|apply Hm|apply Hm].
  eapply R_app; [apply Hm|apply Hf].
Qed.

Lemma preserves_when b (m : M unit) : preserves m -> preserves (when b m).
Proof. intros Hm. destruct b; simpl; [exact Hm|apply preserves_ret]. Qed.

Lemma preserves_forEach (pt : Token -> M unit) tokens :
  (forall t, preserves (pt t)) -> preserves (forEach pt tokens).
Proof.
  intros Hpt. induction tokens as [|t ts IH]; simpl.
  - apply preserves_ret.
  - apply preserves_bind; [apply Hpt|intros _; exact IH].
Qed.

Lemma preserves_js_match re x : preserves (js_match re x).
Proof.
  destruct x as [[s|ts|da]|]; simpl;
    first [apply preserves_ret | apply preserves_throw].
Qed.

Lemma preserves_js_unshift toks t : preserves (js_unshift toks t).
Proof.
  destruct toks as [[s|ts|da]|]; simpl;
    first [apply preserves_ret | apply preserves_throw].
Qed.

Hypothesis R_emit : forall tk this, R this [Emit tk] this.

Lemma preserves_emit tk : preserves (emit tk).
Proof. intro this. apply R_emit. Qed.

Hypothesis R_inTransclusion :
  forall b this, R this [] (set_inTransclusion b this).

Lemma preserves_case_SelfclosingTagTk onChunk token tName attribs dataAttribs :
  (forall toks, preserves (onChunk toks)) ->
  preserves (case_SelfclosingTagTk onChunk token tName attribs dataAttribs).
Proof.
  intros Hchunk. unfold case_SelfclosingTagTk.
  destruct (isEmptyLineMetaToken token).
  { destruct (tokens dataAttribs); [apply Hchunk|apply preserves_throw]. }
  apply preserves_bind.
  { destruct (_ && _); [apply preserves_js_match|apply preserves_ret]. }
  intros unpack.
  assert (Hgeneric : forall atts : list DomAttr,
             preserves (emit (StartTag tName false atts) ;;
                        when (negb (isVoidElement tName))
                          (emit (EndTag tName (Some atts))))).
  { intros atts. apply preserves_bind; [apply preserves_emit|intros _].
    apply preserves_when, preserves_emit. }
  destruct unpack.
  { apply preserves_bind; [apply preserves_js_unshift|intros toks; apply Hchunk]. }
  destruct (String.eqb tName "meta"); [|apply Hgeneric].
  match goal with |- context [if negb ?c then _ else _] =>
    destruct (negb c) end; [|apply Hgeneric].
  apply preserves_bind; [apply preserves_js_match|intros isT].
  apply preserves_bind; [|intros _; apply preserves_emit].
  apply preserves_when. intro this. apply R_inTransclusion.
Qed.

Hypothesis R_haveTransclusionShadow :
  forall b this, R this [] (set_haveTransclusionShadow b this).
Hypothesis R_preceededByPre :
  forall b this, R this [] (set_preceededByPre b this).
Hypothesis R_lastToken :
  forall t this, R this [] (set_lastToken t this).

Lemma preserves_epilogue token : preserves (epilogue token).
Proof.
  unfold epilogue.
  apply preserves_bind.
  { apply preserves_when. intro this. apply R_haveTransclusionShadow. }
  intros _. apply preserves_bind; [|intros _ this; apply R_lastToken].
  destruct token; try (intro this; apply R_preceededByPre).
  destruct (String.eqb name "pre"); [intro this; apply R_preceededByPre|].
  destruct (_ && _); [apply preserves_ret|intro this; apply R_preceededByPre].
Qed.

Lemma preserves_case_String token : preserves (case_String token).
Proof.
  unfold case_String.
  apply preserves_bind; [apply preserves_get|intros this0].
  apply preserves_bind; [apply preserves_emit|intros _].
  apply preserves_when, preserves_bind; [apply preserves_emit|].
  intros _ this. apply R_haveTransclusionShadow.
Qed.

End Preserves.

(** ** What the lines before the [switch] compute *)

Definition is_tag (t : Token) : bool := is_TagTk t || is_SelfclosingTagTk t.

(** The metadata bag that [processToken] works on, and serializes, for a
    token met in the state [this]. *)
Definition metadata (this : TreeBuilder) (token : Token) : DataAttribs :=
  let d := js_or (token_dataAttribs token) freshDataAttribs in
  set_tmp (Some (mkTmp (inTransclusion this || tmp_inTransclusion (the_tmp d))
                       (if is_tag token then Some (tagId this)
                        else tmp_tagId (the_tmp d))))
          d.

Definition attributes (this : TreeBuilder) (token : Token) : list KV :=
  js_or (token_attribs token) [] ++ [KV_ "data-parsoid" (VJson (metadata this token))].

Ltac split_ifs :=
  repeat match goal with
         | |- context [if ?c then _ else _] => destruct c eqn:?; simpl
         end.

Ltac setters :=
  unfold set_tagId, set_inTransclusion, set_precededByPre, set_tableDepth,
    set_haveTransclusionShadow, set_preceededByPre, set_lastToken; simpl.

Ltac run :=
  unfold when, bind, modify, get, emit, log, ret, throw, out_of_fuel; simpl.

Lemma prelude_spec token this :
  prelude token this =
  mkOutcome (Normal (attributes this token, metadata this token))
            (if is_tag token then set_tagId (tagId this + 1) this else this)
            (Call token :: if is_tag token then [SetTagId token (tagId this)] else []).
Proof.
  unfold prelude, attributes, metadata, is_tag.
  destruct token, (inTransclusion this) eqn:E; run; rewrite ?E; simpl;
    try reflexivity;
    try (destruct dataAttribs as [? ? ? ? [[? ?]|] ? ?]; reflexivity).
Qed.

Lemma processToken_S fuel token this :
  processToken (S fuel) token this =
  let this1 := if is_tag token then set_tagId (tagId this + 1) this else this in
  let r :=
    ((match token with
      | StringTk _ | NlTk => case_String token
      | TagTk tName _ _ =>
          case_TagTk tName (attributes this token) (metadata this token)
      | SelfclosingTagTk tName _ _ =>
          case_SelfclosingTagTk (forEach (processToken fuel))
            token tName (attributes this token) (metadata this token)
      | EndTagTk tName _ _ =>
          case_EndTagTk tName (attributes this token) (metadata this token)
      | CommentTk value => emit (Comment (CText value))
      | EOFTk => emit EOF
      | OtherTk => ret tt
      end) ;; epilogue token) this1 in
  mkOutcome (completion r) (this_after r)
    ((Call token :: if is_tag token then [SetTagId token (tagId this)] else [])
     ++ trace r).
Proof.
  cbn [processToken]. unfold bind at 1. rewrite prelude_spec. reflexivity.
Qed.

(** ** Tag ids *)












(** ** Table depth *)

Definition is_open_table (t : Token) : bool :=
  match t with
  | TagTk name _ _ => String.eqb name "table"
  | _ => false
  end.

Definition is_close_table (t : Token) : bool :=
  match t with
  | EndTagTk name _ _ => String.eqb name "table"
  | _ => false
  end.

(** The open [table] tags of a token sequence that are left unmatched,
    latest first, given those ([open]) left unmatched before it: a close
    [table] tag matches the latest open [table] tag that is still
    unmatched, and matches nothing when there is none. *)
Fixpoint unmatched_tables (open : list Token) (ts : list Token) : list Token :=
  match ts with
  | [] => open
  | t :: ts' =>
      if is_open_table t then unmatched_tables (t :: open) ts'
      else if is_close_table t then unmatched_tables (tl open) ts'
      else unmatched_tables open ts'
  end.

Lemma unmatched_tables_app open ts1 ts2 :
  unmatched_tables open (ts1 ++ ts2) =
  unmatched_tables (unmatched_tables open ts1) ts2.
Proof.
  revert open. induction ts1 as [|t ts1 IH]; intros open; simpl; [reflexivity|].
  destruct (is_open_table t); [apply IH|].
  destruct (is_close_table t); apply IH.
Qed.

(** During a step [tableDepth] keeps counting the unmatched open tables. *)
Definition tables_step (s0 : TreeBuilder) (tr : list Event) (s1 : TreeBuilder) : Prop :=
  forall open,
    tableDepth s0 = Z.of_nat (List.length open) ->
    tableDepth s1 = Z.of_nat (List.length (unmatched_tables open (calls tr))).

Lemma tables_step_nil this : tables_step this [] this.
Proof. intros open H. exact H. Qed.

Lemma tables_step_app s0 tr1 s1 tr2 s2 :
  tables_step s0 tr1 s1 -> tables_step s1 tr2 s2 -> tables_step s0 (tr1 ++ tr2) s2.
Proof.
  intros H1 H2 open H. rewrite calls_app, unmatched_tables_app.
  apply H2, H1, H.
Qed.

Lemma tables_step_silent s0 tr s1 :
  calls tr = [] -> tableDepth s1 = tableDepth s0 -> tables_step s0 tr s1.
Proof. intros Hc Ht open H. rewrite Hc, Ht. exact H. Qed.

Ltac tables_side :=
  first [ exact tables_step_nil | exact tables_step_app
        | intros; apply tables_step_silent; reflexivity ].

Lemma tables_step_other token this :
  is_open_table token = false -> is_close_table token = false ->
  tables_step this
    (Call token :: if is_tag token then [SetTagId token (tagId this)] else [])
    (if is_tag token then set_tagId (tagId this + 1) this else this).
Proof.
  intros Ho Hc open H.
  destruct (is_tag token); simpl; rewrite Ho, Hc; exact H.
Qed.

Lemma processToken_tables fuel :
  forall token, preserves tables_step (processToken fuel token).
Proof.
  induction fuel as [|fuel IH]; intros token this.
  { apply tables_step_nil. }
  rewrite processToken_S. cbv zeta. cbn [completion this_after trace].
  destruct token.
  3: { (* TagTk *)
    unfold case_TagTk, epilogue. run. intros open H.
    destruct (String.eqb name "table") eqn:E; simpl; split_ifs;
      rewrite ?E; simpl; lia. }
  4: { (* EndTagTk *)
    unfold case_EndTagTk, epilogue. run. intros open H.
    destruct (String.eqb name "table") eqn:E; simpl.
    - destruct (0 <? tableDepth this) eqn:E'; simpl; split_ifs; simpl;
        rewrite ?E; simpl.
      all: destruct open as [|t open]; simpl in *; lia.
    - split_ifs; rewrite ?E; simpl; lia. }
  all: eapply tables_step_app; [apply tables_step_other; reflexivity|].
  all: apply preserves_bind; try tables_side;
    try (intros _; apply preserves_epilogue; tables_side).
  - apply preserves_case_String; tables_side.
  - apply preserves_case_String; tables_side.
  - apply preserves_case_SelfclosingTagTk; try tables_side.
    intros toks. apply preserves_forEach; try tables_side. exact IH.
Qed.

(** ** Fuel *)

Definition terminates {A : Type} (m : M A) : Prop :=
  forall this, completion (m this) <> OutOfFuel.

Lemma terminates_bind {A B : Type} (m : M A) (f : A -> M B) :
  terminates m -> (forall a, terminates (f a)) -> terminates (bind m f).
Proof.
  intros Hm Hf this. unfold bind.
  destruct (completion (m this)) as [a| |] eqn:E; simpl.
  - apply Hf.
  - discriminate.
  - exfalso. exact (Hm this E).
Qed.

Lemma terminates_when b (m : M unit) : terminates m -> terminates (when b m).
Proof. intros Hm. destruct b; simpl; [exact Hm|discriminate]. Qed.

Lemma terminates_js_match re x : terminates (js_match re x).
Proof. destruct x as [[s|ts|da]|]; simpl; discriminate. Qed.

Lemma terminates_forEach (pt : Token -> M unit) tokens :
  (forall t, In t tokens -> terminates (pt t)) -> terminates (forEach pt tokens).
Proof.
  induction tokens as [|t ts IH]; intros H; simpl.
  - discriminate.
  - apply terminates_bind; [apply H; left; reflexivity|intros _].
    apply IH. intros t' Ht'. apply H. right. exact Ht'.
Qed.

Lemma terminates_epilogue token : terminates (epilogue token).
Proof.
  intro this. unfold epilogue. run. destruct token; split_ifs; discriminate.
Qed.

Lemma In_list_max x l : In x l -> (x <= list_max l)%nat.
Proof.
  intros H. assert (Hle : (list_max l <= list_max l)%nat) by lia.
  apply list_max_le in Hle. rewrite Forall_forall in Hle. apply Hle, H.
Qed.

Lemma last_content_app a b toks :
  last_content (a ++ b) toks = last_content b (last_content a toks).
Proof.
  revert toks. induction a as [|x a IH]; intros toks; simpl; [reflexivity|].
  apply IH.
Qed.

(** The depth of the tokens kept in [content] attributes. *)
Definition attr_depth (attr : KV) : nat :=
  match v attr with
  | VToks ts => list_max (map depth ts)
  | _ => 0%nat
  end.

Lemma last_content_depth attribs toks ts t :
  last_content attribs toks = Some (VToks ts) ->
  In t ts ->
  (depth t <= list_max (map attr_depth attribs))%nat
  \/ toks = Some (VToks ts).
Proof.
  revert toks. induction attribs as [|a attribs IH]; intros toks H Ht; simpl in *.
  - right. exact H.
  - destruct (IH _ H Ht) as [Hle|Heq]; [left; lia|].
    destruct (String.eqb (k a) "content"); [|right; exact Heq].
    left. injection Heq as Heq. unfold attr_depth at 1. rewrite Heq.
    apply (in_map depth) in Ht. apply In_list_max in Ht. lia.
Qed.

Lemma terminates_bind_ret {A B : Type} (a : A) (f : A -> M B) :
  terminates (f a) -> terminates (bind (ret a) f).
Proof. intros H this. exact (H this). Qed.

Lemma terminates_bind_throw {A B : Type} e (f : A -> M B) :
  terminates (bind (throw e) f).
Proof. intros this. discriminate. Qed.

Lemma terminates_generic tName (atts : list DomAttr) :
  terminates (emit (StartTag tName false atts) ;;
              when (negb (isVoidElement tName)) (emit (EndTag tName (Some atts)))).
Proof. intro this. run. split_ifs; discriminate. Qed.

(** More fuel than the token nests expansions is enough: [processToken]
    then returns or throws. *)
Lemma enough_fuel fuel :
  forall token this,
    (depth token < fuel)%nat ->
    completion (processToken fuel token this) <> OutOfFuel.
Proof.
  induction fuel as [|fuel IH]; intros token this Hd; [lia|].
  rewrite processToken_S. cbv zeta. cbn [completion].
  apply terminates_bind; [|intros _; apply terminates_epilogue].
  destruct token; try (intro st; unfold case_String; run; split_ifs; discriminate).
  - intro st. unfold case_TagTk. run. split_ifs; discriminate.
  - (* SelfclosingTagTk *)
    assert (Hchunk : forall toks,
               (forall t, In t toks -> (depth t < fuel)%nat) ->
               terminates (forEach (processToken fuel) toks)).
    { intros toks H. apply terminates_forEach. intros t Ht st.
      apply IH, H, Ht. }
    change (S (Nat.max (match tokens dataAttribs with
                        | Some ts => list_max (map depth ts)
                        | None => 0%nat
                        end)
                       (list_max (map attr_depth attribs))) < S fuel)%nat in Hd.
    unfold case_SelfclosingTagTk.
    destruct (isEmptyLineMetaToken _).
    { cbn [metadata token_dataAttribs js_or set_tmp tokens].
      destruct (tokens dataAttribs) as [toks|] eqn:E; [|intro st; discriminate].
      apply Hchunk. intros t Ht.
      apply (in_map depth) in Ht. apply In_list_max in Ht. lia. }
    apply terminates_bind.
    { destruct (_ && _); [apply terminates_js_match|intro st; discriminate]. }
    intros unpack. destruct unpack.
    { unfold attributes. cbn [token_attribs js_or].
      rewrite last_content_app. cbn [last_content KV_ k].
      replace (String.eqb "data-parsoid" "content") with false by reflexivity.
      destruct (last_content attribs None) as [[s|ts|da]|] eqn:E;
        cbn [js_unshift]; try apply terminates_bind_throw.
      apply terminates_bind_ret, Hchunk. intros t Ht.
      destruct Ht as [<-|Ht]; [simpl; lia|].
      apply in_app_or in Ht. destruct Ht as [Ht|[<-|[]]]; [|simpl; lia].
      destruct (@last_content_depth attribs None ts t E Ht) as [Hle|Heq];
        [|discriminate].
      lia. }
    destruct (String.eqb name "meta"); [|apply terminates_generic].
    match goal with |- context [if negb ?c then _ else _] =>
      destruct (negb c) end; [|apply terminates_generic].
    apply terminates_bind; [apply terminates_js_match|intros isT].
    intro st. run. split_ifs; discriminate.
  - intro st. unfold case_EndTagTk. run. split_ifs; discriminate.
Qed.

Lemma forEach_ext (pt1 pt2 : Token -> M unit) tokens :
  (forall t, In t tokens -> forall s, pt1 t s = pt2 t s) ->
  forall this, forEach pt1 tokens this = forEach pt2 tokens this.
Proof.
  induction tokens as [|t ts IH]; intros H this; simpl; [reflexivity|].
  unfold bind. rewrite (H t (or_introl eq_refl)).
  destruct (completion (pt2 t this)); try reflexivity.
  rewrite IH; [reflexivity|]. intros t' Ht'. apply H. right. exact Ht'.
Qed.

(** Beyond what [enough_fuel] asks for, the fuel does not matter. *)
Lemma fuel_irrelevant fuel1 :
  forall fuel2 token this,
    (depth token < fuel1)%nat -> (depth token < fuel2)%nat ->
    processToken fuel1 token this = processToken fuel2 token this.
Proof.
  induction fuel1 as [|fuel1 IH]; intros [|fuel2] token this H1 H2; try lia.
  rewrite !processToken_S. cbv zeta.
  destruct token; try reflexivity.
  change (S (Nat.max (match tokens dataAttribs with
                      | Some ts => list_max (map depth ts)
                      | None => 0%nat
                      end)
                     (list_max (map attr_depth attribs))) < S fuel1)%nat in H1.
  change (S (Nat.max (match tokens dataAttribs with
                      | Some ts => list_max (map depth ts)
                      | None => 0%nat
                      end)
                     (list_max (map attr_depth attribs))) < S fuel2)%nat in H2.
  assert (Hchunk : forall toks,
             (forall t, In t toks ->
                        (depth t < fuel1)%nat /\ (depth t < fuel2)%nat) ->
             forall s, forEach (processToken fuel1) toks s
                       = forEach (processToken fuel2) toks s).
  { intros toks H. apply forEach_ext. intros t Ht s.
    apply IH; apply H, Ht. }
  match goal with
  | |- mkOutcome (completion (bind ?m1 ?f ?s)) _ _
       = mkOutcome (completion (bind ?m2 _ _)) _ _ =>
      assert (Hm : forall st, m1 st = m2 st);
      [|unfold bind; rewrite Hm; reflexivity]
  end.
  intros st. unfold case_SelfclosingTagTk.
  destruct (isEmptyLineMetaToken _).
  { cbn [metadata token_dataAttribs js_or set_tmp tokens].
    destruct (tokens dataAttribs) as [toks|] eqn:E; [|reflexivity].
    apply Hchunk. intros t Ht.
    apply (in_map depth) in Ht. apply In_list_max in Ht. lia. }
  apply bind_ext. intros unpack s. destruct unpack; [|reflexivity].
  unfold attributes. cbn [token_attribs js_or].
  rewrite last_content_app. cbn [last_content KV_ k].
  replace (String.eqb "data-parsoid" "content") with false by reflexivity.
  destruct (last_content attribs None) as [[x|ts|da]|] eqn:E;
    cbn [js_unshift]; try reflexivity.
  unfold bind, ret. cbn [completion this_after trace].
  rewrite Hchunk; [reflexivity|]. intros t Ht.
  destruct Ht as [<-|Ht]; [simpl; lia|].
  apply in_app_or in Ht. destruct Ht as [Ht|[<-|[]]]; [|simpl; lia].
  destruct (@last_content_depth attribs None ts t E Ht) as [Hle|Heq];
    [lia|discriminate].
Qed.

(** ** Closed forms for the tokens that are not expanded *)

Lemma forEach_app (pt : Token -> M unit) ts1 ts2 this :
  forEach pt (ts1 ++ ts2) this =
  (forEach pt ts1 ;; forEach pt ts2) this.
Proof.
  revert this. induction ts1 as [|t ts1 IH]; intros this.
  - simpl. unfold bind, ret. simpl. destruct (forEach pt ts2 this); reflexivity.
  - simpl. rewrite bind_assoc. apply bind_ext. intros _ s. apply IH.
Qed.

(** The text command of a text or newline token. *)
Definition text_command (pre : bool) (t : Token) : HtmlToken :=
  let data := match t with StringTk s => s | _ => nl end in
  Characters (if pre && starts_with_nl data then (nl ++ data)%string else data).

(** Whether a shadow marker is due after the text of [t]. *)
Definition shadow_due (this : TreeBuilder) (t : Token) : bool :=
  inTransclusion this && (0 <? tableDepth this)
  && is_String t && negb (haveTransclusionShadow this).

Definition is_text (t : Token) : bool := is_String t || is_NlTk t.

Lemma processToken_text fuel t this :
  is_text t = true ->
  processToken (S fuel) t this =
  mkOutcome (Normal tt)
    (set_lastToken (Some t)
       (set_preceededByPre false
          (if shadow_due this t then set_haveTransclusionShadow true this else this)))
    (Call t :: Emit (text_command (preceededByPre this) t)
       :: if shadow_due this t then [Emit TransclusionShadow] else []).
Proof.
  intros Ht. rewrite processToken_S.
  destruct t; try discriminate Ht; unfold case_String, epilogue, shadow_due; run.
  - destruct (inTransclusion this && (0 <? tableDepth this) && true
              && negb (haveTransclusionShadow this)); reflexivity.
  - rewrite andb_false_r. reflexivity.
Qed.

(** The foster box comes with an open [table] outside transclusions. *)
Definition foster_box (this : TreeBuilder) (tName : string) : list HtmlToken :=
  if String.eqb tName "table" && negb (inTransclusion this) then [FosterBox] else [].

Definition flag_after_open (tName : string) (attribs : list KV) (flag : bool) : bool :=
  if String.eqb tName "pre" then true
  else if String.eqb tName "span" && strict_eq (lookup attribs "typeof") "mw:Nowiki"
       then flag
       else false.

Lemma processToken_TagTk fuel tName attribs dataAttribs this :
  let token := TagTk tName attribs dataAttribs in
  processToken (S fuel) token this =
  mkOutcome (Normal tt)
    (mkTreeBuilder (tagId this + 1) (inTransclusion this) (precededByPre this)
       (if String.eqb tName "table" then tableDepth this + 1 else tableDepth this)
       false
       (flag_after_open tName attribs (preceededByPre this))
       (Some token))
    (Call token :: SetTagId token (tagId this)
       :: map Emit (foster_box this tName
                    ++ [StartTag tName false (_att (attributes this token));
                        Comment (open_shadow tName (metadata this token))])).
Proof.
  intros token. subst token. rewrite processToken_S.
  unfold case_TagTk, epilogue, foster_box, flag_after_open, getAttribute. run.
  destruct (String.eqb tName "table"); simpl; setters;
    destruct (inTransclusion this); simpl;
    destruct (String.eqb tName "pre"); simpl; try reflexivity;
    destruct (String.eqb tName "span"
              && strict_eq (lookup attribs "typeof") "mw:Nowiki"); reflexivity.
Qed.

Lemma processToken_EndTagTk fuel tName attribs dataAttribs this :
  let token := EndTagTk tName attribs dataAttribs in
  processToken (S fuel) token this =
  mkOutcome (Normal tt)
    (mkTreeBuilder (tagId this) (inTransclusion this) (precededByPre this)
       (if String.eqb tName "table" && (0 <? tableDepth this)
        then tableDepth this - 1 else tableDepth this)
       false false (Some token))
    (Call token :: Emit (EndTag tName None)
       :: if autoInsertedEnd dataAttribs then []
          else [Emit (Comment (close_shadow tName (attributes this token)
                                 (metadata this token)))]).
Proof.
  intros token. subst token. rewrite processToken_S.
  unfold case_EndTagTk, epilogue. run.
  destruct (String.eqb tName "table" && (0 <? tableDepth this)); simpl;
    destruct (autoInsertedEnd dataAttribs); reflexivity.
Qed.

Lemma emitted_map_Emit cmds : emitted (map Emit cmds) = cmds.
Proof. induction cmds as [|c cmds IH]; simpl; [|rewrite IH]; reflexivity. Qed.

Lemma resetState_spec this :
  let body := TagTk "body" [] emptyDataAttribs in
  let bag := set_tmp (Some (mkTmp false (Some 1))) emptyDataAttribs in
  resetState this =
  mkOutcome (Normal tt)
    (mkTreeBuilder 2 false false 0 false false (Some body))
    [ Call body; SetTagId body 1;
      Emit (StartTag "body" false [mkDomAttr "data-parsoid" (VJson bag) None]);
      Emit (Comment (open_shadow "body" bag)) ].
Proof. reflexivity. Qed.

(** What the lines after the [switch] do. *)

Definition is_open_pre (t : Token) : bool :=
  match t with
  | TagTk name _ _ => String.eqb name "pre"
  | _ => false
  end.

(** An open [span] whose [typeof] is [mw:Nowiki]. *)
Definition is_nowiki_span (t : Token) : bool :=
  match t with
  | TagTk name _ _ =>
      String.eqb name "span" && strict_eq (getAttribute t "typeof") "mw:Nowiki"
  | _ => false
  end.

(** The text of a text or newline token. *)
Definition text_of (t : Token) : option string :=
  match t with
  | StringTk s => Some s
  | NlTk => Some nl
  | _ => None
  end.

Lemma epilogue_spec token this :
  epilogue token this =
  mkOutcome (Normal tt)
    (set_lastToken (Some token)
       (set_preceededByPre
          (if is_nowiki_span token then preceededByPre this else is_open_pre token)
          (if is_text token then this else set_haveTransclusionShadow false this)))
    [].
Proof.
  unfold epilogue, is_nowiki_span, is_open_pre. run.
  destruct token; try reflexivity.
  destruct (String.eqb name "pre") eqn:E.
  - replace (String.eqb name "span") with false; [reflexivity|].
    apply String.eqb_eq in E. subst name. reflexivity.
  - simpl. destruct (_ && _); [|reflexivity].
    simpl. setters. destruct this; reflexivity.
Qed.

(** * The claims *)

(** ** C1: the basic paragraph *)

Definition basic_paragraph : list Token :=
  [ TagTk "p" [] emptyDataAttribs; StringTk "hi";
    EndTagTk "p" [] emptyDataAttribs; EOFTk ].

(** The command sequence of the scenario: open [p], the open shadow whose
    [data-stag] is [stag], the text, close [p], the close shadow for [p],
    and the end of the stream. *)
Definition basic_paragraph_commands (stag : string) (cmds : list HtmlToken) : Prop :=
  exists open_attrs open_bag close_attrs close_bag,
    cmds =
    [ StartTag "p" false open_attrs;
      Comment (CStringify (VStr "mw:shadow")
                 [ attr_ "typeof" "mw:StartTag";
                   attr_ "data-stag" stag;
                   mkDomAttr "data-parsoid" (VJson open_bag) None ]);
      Characters "hi";
      EndTag "p" None;
      Comment (close_shadow "p" close_attrs close_bag);
      EOF ].

(** C1, as stated, fails: processed by a newly constructed adapter, the
    basic paragraph does not yield the command sequence whose open shadow
    has the [data-stag] [p:1]. *)
Lemma basic_paragraph_not_p1 :
  ~ basic_paragraph_commands "p:1"
      (emitted (trace (onChunk 1 basic_paragraph newTreeBuilder))).
Proof.
  intros (oa & ob & ca & cb & H). vm_compute in H. discriminate H.
Qed.

(** C1, amended: from a freshly reset adapter the basic paragraph is
    processed to the end and yields exactly open [p], the open shadow with
    [data-stag] [p:2], text [hi], close [p], the close shadow for [p], and
    the end of the stream; the id 1 went to the [body] tag of the reset. *)
Theorem basic_paragraph_p2 :
  forall fuel this,
    let r := onChunk (S fuel) basic_paragraph (this_after (resetState this)) in
    completion r = Normal tt
    /\ basic_paragraph_commands "p:2" (emitted (trace r)).
Proof.
  intros fuel this r. split; [reflexivity|].
  unfold basic_paragraph_commands. do 4 eexists. reflexivity.
Qed.

(** ** C10: the reset feeds a [body] tag through [processToken] *)

Lemma silent_tokens fuel before this :
  forallb (fun t => negb (is_tag t)) before = true ->
  let r := onChunk (S fuel) before this in
  completion r = Normal tt /\ assigned (trace r) = []
  /\ tagId (this_after r) = tagId this.
Proof.
  revert this. induction before as [|t before IH]; intros this H r; subst r.
  - repeat split.
  - simpl in H. apply andb_prop in H. destruct H as [Ht H].
    unfold onChunk. cbn [forEach]. fold (onChunk (S fuel) before).
    assert (Hone : completion (processToken (S fuel) t this) = Normal tt
                   /\ assigned (trace (processToken (S fuel) t this)) = []
                   /\ tagId (this_after (processToken (S fuel) t this)) = tagId this).
    { destruct t; try discriminate Ht.
      - rewrite processToken_text by reflexivity. simpl.
        destruct (shadow_due this (StringTk s)); repeat split.
      - rewrite processToken_text by reflexivity. simpl.
        destruct (shadow_due this NlTk); repeat split.
      - rewrite processToken_EndTagTk. simpl.
        destruct (autoInsertedEnd dataAttribs); repeat split.
      - repeat split.
      - repeat split.
      - repeat split. }
    destruct Hone as (Hc & Ha & Hi).
    rewrite (bind_Normal _ _ _ Hc). cbn [completion this_after trace].
    destruct (IH (this_after (processToken (S fuel) t this)) H) as (Hc' & Ha' & Hi').
    rewrite assigned_app, Ha, Ha', Hi', Hi, Hc'. repeat split.
Qed.

Lemma first_tag_id fuel before t after this :
  forallb (fun t => negb (is_tag t)) before = true ->
  is_tag t = true ->
  hd_error (assigned (trace (onChunk (S fuel) (before ++ t :: after) this)))
  = Some (t, tagId this).
Proof.
  intros Hb Ht.
  destruct (silent_tokens fuel before this Hb) as (Hc & Ha & Hi).
  unfold onChunk in *. rewrite forEach_app.
  rewrite (bind_Normal _ _ _ Hc). cbn [trace forEach].
  rewrite assigned_app, Ha. cbn [app].
  match goal with |- context [trace (bind ?m ?f ?s)] =>
    destruct (bind_trace_prefix m f s) as [rest ->] end.
  rewrite processToken_S. cbv zeta. cbn [trace].
  rewrite Ht, Hi. reflexivity.
Qed.

(** C10: every reset completes, issues the commands of an open [body] tag
    and nothing else, and hands the id 1 to that tag, leaving the counter
    at 2; the first open or self-closing tag of the token stream that
    follows is handed the id 2. *)
Theorem resetState_body_takes_id_1 :
  forall this,
    let body := TagTk "body" [] emptyDataAttribs in
    let bag := set_tmp (Some (mkTmp false (Some 1))) emptyDataAttribs in
    let r := resetState this in
    completion r = Normal tt
    /\ calls (trace r) = [body]
    /\ assigned (trace r) = [(body, 1)]
    /\ emitted (trace r) =
       [ StartTag "body" false [mkDomAttr "data-parsoid" (VJson bag) None];
         Comment (open_shadow "body" bag) ]
    /\ tagId (this_after r) = 2
    /\ forall fuel before t after,
         forallb (fun t => negb (is_tag t)) before = true ->
         is_tag t = true ->
         hd_error (assigned (trace (onChunk (S fuel) (before ++ t :: after)
                                      (this_after r))))
         = Some (t, 2).
Proof.
  intros this body bag r. subst r. rewrite resetState_spec.
  cbn [completion trace this_after].
  repeat split.
  intros fuel before t after Hb Ht.
  rewrite first_tag_id by assumption. reflexivity.
Qed.

(** A stream whose first tag comes after a text and a comment. *)
Lemma resetState_body_takes_id_1_witness :
  hd_error (assigned (trace (onChunk 1
     ([StringTk "a"; CommentTk "c"] ++ TagTk "p" [] emptyDataAttribs :: [EOFTk])
     (this_after (resetState blank)))))
  = Some (TagTk "p" [] emptyDataAttribs, 2).
Proof.
  apply (resetState_body_takes_id_1 blank); reflexivity.
Defined.

(** ** C5: tag ids within one parse *)

(** One parse: a reset and the token stream that follows it. *)
Definition parse (fuel : nat) (tokens : list Token) : M unit :=
  resetState ;; onChunk fuel tokens.

Lemma parse_spec fuel tokens this :
  let body := TagTk "body" [] emptyDataAttribs in
  let s1 := this_after (resetState this) in
  let r := onChunk fuel tokens s1 in
  parse fuel tokens this =
  mkOutcome (completion r) (this_after r) (trace (resetState this) ++ trace r).
Proof.
  intros body s1 r. subst s1 r. unfold parse, bind.
  rewrite resetState_spec. reflexivity.
Qed.


Lemma onChunk_tables fuel tokens : preserves tables_step (onChunk fuel tokens).
Proof.
  apply preserves_forEach; try tables_side. apply processToken_tables.
Qed.


(** ** C2: the table depth *)

Lemma tableDepth_nonneg fuel token this :
  0 <= tableDepth this ->
  0 <= tableDepth (this_after (processToken fuel token this)).
Proof.
  intros H.
  rewrite (processToken_tables fuel token this
             (repeat OtherTk (Z.to_nat (tableDepth this)))).
  - lia.
  - rewrite repeat_length. lia.
Qed.

(** C2: [tableDepth] is never negative after a call of [processToken]
    that found it non-negative, as the reset leaves it; a close [table] tag
    lowers it by one when it is positive and leaves it alone at zero;
    and at any point of a parse it is the number of open [table] tags
    processed so far that no later close [table] tag has matched, so that it
    is positive exactly when there is such a tag. *)
Theorem tableDepth_counts_unmatched_tables :
  (forall fuel token this,
      0 <= tableDepth this ->
      0 <= tableDepth (this_after (processToken fuel token this)))
  /\ (forall fuel attribs dataAttribs this,
         tableDepth (this_after (processToken (S fuel)
                                   (EndTagTk "table" attribs dataAttribs) this))
         = if 0 <? tableDepth this then tableDepth this - 1 else tableDepth this)
  /\ (forall fuel tokens this,
         let r := parse fuel tokens this in
         let open := unmatched_tables [] (calls (trace r)) in
         tableDepth (this_after r) = Z.of_nat (List.length open)
         /\ 0 <= tableDepth (this_after r)
         /\ (0 < tableDepth (this_after r) <-> open <> [])).
Proof.
  split; [exact tableDepth_nonneg|]. split.
  { intros. rewrite processToken_EndTagTk. reflexivity. }
  intros fuel tokens this r open.
  assert (H : tableDepth (this_after r) = Z.of_nat (List.length open)).
  { subst open r. rewrite parse_spec. cbv zeta. cbn [trace this_after].
    rewrite resetState_spec. cbn [trace this_after].
    rewrite calls_app, unmatched_tables_app.
    apply (onChunk_tables fuel tokens). reflexivity. }
  rewrite H. repeat split; try lia.
  - intros Hpos Hnil. rewrite Hnil in Hpos. simpl in Hpos. lia.
  - intros Hne. destruct open; [congruence|simpl; lia].
Qed.

(** A close [table] tag met at depth zero, as right after the reset. *)
Lemma tableDepth_counts_unmatched_tables_witness :
  0 <= tableDepth newTreeBuilder
  /\ 0 <= tableDepth (this_after (processToken 1
            (EndTagTk "table" [] emptyDataAttribs) newTreeBuilder)).
Proof.
  split; [vm_compute; discriminate|].
  apply (proj1 tableDepth_counts_unmatched_tables). vm_compute. discriminate.
Defined.

(** ** C4 and C6: shadow comments and the foster box *)


Lemma att_attributes this token :
  _att (attributes this token) =
  _att (js_or (token_attribs token) [])
  ++ [mkDomAttr "data-parsoid" (VJson (metadata this token)) None].
Proof. unfold attributes, _att. rewrite map_app. reflexivity. Qed.




(** ** C9: the metadata attribute of element commands *)

(** The command is an element command whose attribute list has a
    [data-parsoid] attribute holding the serialized [bag]. *)
Definition carries_data_parsoid (bag : DataAttribs) (c : HtmlToken) : Prop :=
  match c with
  | StartTag _ _ data | EndTag _ (Some data) =>
      In (mkDomAttr "data-parsoid" (VJson bag) None) data
  | _ => False
  end.

(** C9, as stated, fails: the close-element command of a close tag has no
    attribute list at all. *)
Lemma close_element_without_attributes :
  let token := EndTagTk "p" [] emptyDataAttribs in
  exists c rest,
    emitted (trace (processToken 1 token newTreeBuilder)) = c :: rest
    /\ c = EndTag "p" None
    /\ forall bag, ~ carries_data_parsoid bag c.
Proof.
  do 2 eexists. split; [reflexivity|]. split; [reflexivity|].
  intros bag H. exact H.
Qed.

(** C9, amended: the open-element command of an open tag carries, as the
    last entry of its attribute list, a [data-parsoid] attribute holding
    the serialized metadata bag of the token; the close-element command of
    a close tag has no attribute list: the serialized metadata bag of a
    close tag travels in the close shadow comment only, and nowhere when
    the tag is flagged auto-inserted. *)
Theorem data_parsoid_carried_by_open_element :
  forall fuel tName attribs dataAttribs this,
    let open := TagTk tName attribs dataAttribs in
    let close := EndTagTk tName attribs dataAttribs in
    let element :=
      StartTag tName false
        (_att attribs
         ++ [mkDomAttr "data-parsoid" (VJson (metadata this open)) None]) in
    In element (emitted (trace (processToken (S fuel) open this)))
    /\ carries_data_parsoid (metadata this open) element
    /\ emitted (trace (processToken (S fuel) close this)) =
       EndTag tName None
       :: if autoInsertedEnd dataAttribs then []
          else [Comment (close_shadow tName (attributes this close)
                           (metadata this close))].
Proof.
  intros fuel tName attribs dataAttribs this open close element.
  subst open close element.
  rewrite processToken_TagTk, processToken_EndTagTk. cbv zeta. cbn [trace].
  split; [|split].
  - cbn [emitted]. rewrite emitted_map_Emit, att_attributes.
    apply in_or_app. right. left. reflexivity.
  - simpl. apply in_or_app. right. left. reflexivity.
  - destruct (autoInsertedEnd dataAttribs); reflexivity.
Qed.

(** ** C3: the transclusion shadow of a run of text *)

(** A transclusion shadow marker: a [meta] element typed
    [mw:TransclusionShadow]. *)
Definition is_TransclusionShadow (c : HtmlToken) : bool :=
  match c with
  | StartTag name _ data =>
      String.eqb name "meta"
      && existsb (fun a => String.eqb (nodeName a) "typeof"
                           && strict_eq (Some (nodeValue a)) "mw:TransclusionShadow")
                 data
  | _ => false
  end.

(** The text commands of a run: only the first can be preceded by [pre]. *)
Fixpoint text_commands (pre : bool) (ts : list Token) : list HtmlToken :=
  match ts with
  | [] => []
  | t :: ts' => text_command pre t :: text_commands false ts'
  end.

Lemma text_commands_no_shadow pre ts :
  filter is_TransclusionShadow (text_commands pre ts) = [].
Proof.
  revert pre. induction ts as [|t ts IH]; intros pre; simpl; [reflexivity|apply IH].
Qed.




(** A run of text and newline tokens in which no shadow marker is due. *)
Lemma run_without_shadow fuel ts this :
  forallb is_text ts = true ->
  forallb (fun t => negb (shadow_due this t)) ts = true ->
  let r := onChunk (S fuel) ts this in
  completion r = Normal tt
  /\ emitted (trace r) = text_commands (preceededByPre this) ts
  /\ inTransclusion (this_after r) = inTransclusion this
  /\ tableDepth (this_after r) = tableDepth this
  /\ haveTransclusionShadow (this_after r) = haveTransclusionShadow this
  /\ preceededByPre (this_after r)
     = match ts with [] => preceededByPre this | _ => false end.
Proof.
  revert this. induction ts as [|t ts IH]; intros this Ht Hs r; subst r.
  - repeat split.
  - simpl in Ht, Hs. apply andb_prop in Ht. destruct Ht as [Ht Hts].
    apply andb_prop in Hs. destruct Hs as [Hs Hss].
    apply negb_true_iff in Hs.
    unfold onChunk. cbn [forEach]. unfold bind.
    rewrite (processToken_text fuel t this Ht). rewrite Hs.
    cbn [completion this_after trace].
    set (s1 := set_lastToken _ _).
    assert (Hss' : forallb (fun t => negb (shadow_due s1 t)) ts = true).
    { exact Hss. }
    destruct (IH s1 Hts Hss') as (Hc & He & Hi & Hd & Hh & Hp).
    unfold onChunk in *. rewrite Hc, Hi, Hd, Hh.
    cbn [app emitted]. rewrite He, Hp.
    repeat split. destruct ts; reflexivity.
Qed.






(** ** C7: preceded by [pre] *)

(** C7: when [processToken] returns, the flag is true if the token was an
    open [pre] tag and false otherwise, except that an open [span] typed
    [mw:Nowiki] leaves it as it was; and a text or newline token whose text
    begins with a newline, met while the flag is true, yields a text command
    with one more newline in front. *)
Theorem preceded_by_pre :
  forall fuel token this,
    (completion (processToken fuel token this) = Normal tt ->
     preceededByPre (this_after (processToken fuel token this))
     = if is_nowiki_span token then preceededByPre this else is_open_pre token)
    /\ (forall data,
           text_of token = Some data ->
           preceededByPre this = true ->
           starts_with_nl data = true ->
           hd_error (emitted (trace (processToken (S fuel) token this)))
           = Some (Characters (nl ++ data)%string)).
Proof.
  intros fuel token this. split.
  - destruct fuel as [|fuel]; [discriminate|].
    rewrite processToken_S. cbv zeta. cbn [completion this_after].
    unfold bind at 1 2.
    match goal with |- context [completion (?m ?s)] =>
      destruct (m s) as [[[]|e|] s2 tr2] eqn:E end;
      cbn [completion this_after]; try discriminate.
    intros _. rewrite epilogue_spec. cbn [this_after]. setters.
    destruct (is_nowiki_span token) eqn:En; [|reflexivity].
    destruct token; try discriminate En.
    apply (f_equal (fun r => preceededByPre (this_after r))) in E.
    cbn [this_after] in E. rewrite <- E.
    unfold case_TagTk. run. split_ifs; reflexivity.
  - intros data Ht Hp Hn.
    destruct token; try discriminate Ht; injection Ht as <-;
      rewrite processToken_text by reflexivity;
      cbn [trace emitted hd_error]; unfold text_command;
      rewrite Hp, Hn; reflexivity.
Qed.

(** An open [pre] tag, then a text that begins with a newline. *)
Lemma preceded_by_pre_witness :
  let pre := TagTk "pre" [] emptyDataAttribs in
  let this := this_after (processToken 1 pre newTreeBuilder) in
  preceededByPre this = true
  /\ hd_error (emitted (trace (processToken 1 (StringTk (nl ++ "a")) this)))
     = Some (Characters (nl ++ nl ++ "a")%string).
Proof.
  intros pre this. split.
  - apply (proj1 (preceded_by_pre 1 pre newTreeBuilder)). reflexivity.
  - apply (proj2 (preceded_by_pre 0 (StringTk (nl ++ "a")) this));
      reflexivity.
Defined.

(** ** C8: an html [pre] without its [content] *)

Lemma last_content_absent attribs toks :
  lookup attribs "content" = None -> last_content attribs toks = toks.
Proof.
  revert toks. induction attribs as [|a attribs IH]; intros toks H; simpl in *.
  - reflexivity.
  - destruct (String.eqb (k a) "content"); [discriminate H|apply IH, H].
Qed.

(** C8, as stated, fails: the self-closing html [pre] without [content]
    makes [processToken] throw; no command is issued for it, and the token
    after it in the chunk is not processed. *)
Lemma pre_without_content_throws :
  let pre := SelfclosingTagTk "pre" [KV_ "property" (VStr "mw:html")]
               emptyDataAttribs in
  let r := onChunk 2 [pre; StringTk "x"] newTreeBuilder in
  completion r = Throw TypeError
  /\ emitted (trace r) = []
  /\ calls (trace r) = [pre].
Proof. vm_compute. repeat split. Qed.

(** C8, amended: a self-closing [pre] whose [property] is [mw:html] and
    which has no [content] attribute is not handled as a generic
    self-closing tag: the unpacking is attempted and throws a [TypeError]
    where the open [pre] is to be put in front of the missing content; the
    tag id has been taken, no command is issued, the flags of the adapter
    are as before, and the exception leaves [onChunk], whose remaining
    tokens are not processed. *)
Theorem pre_without_content :
  forall fuel attribs dataAttribs rest this,
    lookup attribs "property" = Some (VStr "mw:html") ->
    lookup attribs "content" = None ->
    let pre := SelfclosingTagTk "pre" attribs dataAttribs in
    let thrown :=
      mkOutcome (Throw TypeError) (set_tagId (tagId this + 1) this)
        [Call pre; SetTagId pre (tagId this)] in
    processToken (S fuel) pre this = thrown
    /\ onChunk (S fuel) (pre :: rest) this = thrown.
Proof.
  intros fuel attribs dataAttribs rest this Hp Hc pre thrown.
  assert (H : processToken (S fuel) pre this = thrown).
  { subst pre thrown. rewrite processToken_S. cbv zeta.
    unfold case_SelfclosingTagTk, isEmptyLineMetaToken, getAttribute.
    cbn [String.eqb Ascii.eqb Bool.eqb andb token_attribs js_or].
    rewrite Hp. cbn [js_truthy String.eqb negb andb js_match re_mw_html].
    unfold attributes. cbn [token_attribs js_or].
    rewrite last_content_app, (last_content_absent _ _ Hc).
    reflexivity. }
  split; [exact H|].
  unfold onChunk. cbn [forEach]. rewrite bind_Throw with (e := TypeError).
  - rewrite H. reflexivity.
  - rewrite H. reflexivity.
Qed.

(** The html [pre] of the counterexample, met by a new adapter. *)
Lemma pre_without_content_witness :
  let pre := SelfclosingTagTk "pre" [KV_ "property" (VStr "mw:html")]
               emptyDataAttribs in
  onChunk 1 [pre; EOFTk] newTreeBuilder
  = mkOutcome (Throw TypeError) (set_tagId 3 newTreeBuilder)
      [Call pre; SetTagId pre 2].
Proof.
  intros pre.
  apply (proj2 (pre_without_content 0 [KV_ "property" (VStr "mw:html")]
                  emptyDataAttribs [EOFTk] newTreeBuilder
                  eq_refl eq_refl)).
Defined.

(** * Further properties of the adapter *)

(** ** Self-closing tags *)

(** What [processToken] makes of a self-closing tag whose [case] returns
    the outcome [r] from the state in which the tag id has been taken. *)
Lemma processToken_SelfclosingTagTk fuel tName attribs dataAttribs this :
  let token := SelfclosingTagTk tName attribs dataAttribs in
  let r := (case_SelfclosingTagTk (forEach (processToken fuel)) token tName
              (attributes this token) (metadata this token) ;;
            epilogue token) (set_tagId (tagId this + 1) this) in
  processToken (S fuel) token this =
  mkOutcome (completion r) (this_after r)
    (Call token :: SetTagId token (tagId this) :: trace r).
Proof. intros token r. subst token r. rewrite processToken_S. reflexivity. Qed.



(** X2.  A [meta] typed with a string that is neither the empty-line marker nor
    one of the types and properties that must stay elements is turned into
    one comment, which carries the type and the attributes; no element is
    emitted.  A type that begins with [mw:Transclusion] sets the
    transclusion flag: to true when it is exactly [mw:Transclusion], to
    false otherwise; any other type leaves the flag as it was. *)
Theorem meta_becomes_comment :
  forall fuel attribs dataAttribs ty this,
    lookup attribs "typeof" = Some (VStr ty) ->
    String.eqb ty "mw:EmptyLine" = false ->
    re_fosterable_typeof ty = false ->
    js_test re_PageProp (lookup attribs "property") = false ->
    let token := SelfclosingTagTk "meta" attribs dataAttribs in
    processToken (S fuel) token this =
    mkOutcome (Normal tt)
      (mkTreeBuilder (tagId this + 1)
         (if re_Transclusion_prefix ty then String.eqb ty "mw:Transclusion"
          else inTransclusion this)
         (precededByPre this) (tableDepth this) false false (Some token))
      [ Call token; SetTagId token (tagId this);
        Emit (Comment (CStringify (VStr ty) (_att (attributes this token)))) ].
Proof.
  intros fuel attribs dataAttribs ty this Hty Hel Hf Hp token. subst token.
  rewrite processToken_SelfclosingTagTk. cbv zeta.
  unfold case_SelfclosingTagTk, isEmptyLineMetaToken, getAttribute.
  cbn [token_attribs js_or String.eqb Ascii.eqb Bool.eqb andb].
  rewrite Hty. cbn [strict_eq]. rewrite Hel. cbv zeta. rewrite Hp.
  unfold js_test, re_Transclusion_exact. cbn [text_tested].
  rewrite !Hf. cbn [negb js_match js_or].
  destruct (re_Transclusion_prefix ty); unfold epilogue; run; reflexivity.
Qed.

(** The start and the end of a transclusion. *)
Lemma meta_becomes_comment_witness :
  let start := SelfclosingTagTk "meta" [KV_ "typeof" (VStr "mw:Transclusion")]
                 emptyDataAttribs in
  let stop := SelfclosingTagTk "meta" [KV_ "typeof" (VStr "mw:Transclusion/End")]
                emptyDataAttribs in
  let inside := this_after (processToken 1 start newTreeBuilder) in
  inTransclusion inside = true
  /\ inTransclusion (this_after (processToken 1 stop inside)) = false.
Proof.
  intros start stop inside. split.
  - exact (f_equal (fun r => inTransclusion (this_after r))
             (meta_becomes_comment 0 [KV_ "typeof" (VStr "mw:Transclusion")]
                emptyDataAttribs newTreeBuilder
                eq_refl eq_refl eq_refl eq_refl)).
  - exact (f_equal (fun r => inTransclusion (this_after r))
             (meta_becomes_comment 0 [KV_ "typeof" (VStr "mw:Transclusion/End")]
                emptyDataAttribs inside
                eq_refl eq_refl eq_refl eq_refl)).
Defined.



(** X4.  A [meta] without a [typeof] attribute whose property does not keep it
    an element makes [processToken] throw a [TypeError], where the absent
    type is asked for its [match]: the tag id has been taken, no command is
    issued, and the rest of the chunk is not processed. *)
Theorem meta_without_typeof_throws :
  forall fuel attribs dataAttribs rest this,
    lookup attribs "typeof" = None ->
    js_test re_PageProp (lookup attribs "property") = false ->
    let token := SelfclosingTagTk "meta" attribs dataAttribs in
    let thrown :=
      mkOutcome (Throw TypeError) (set_tagId (tagId this + 1) this)
        [Call token; SetTagId token (tagId this)] in
    processToken (S fuel) token this = thrown
    /\ onChunk (S fuel) (token :: rest) this = thrown.
Proof.
  intros fuel attribs dataAttribs rest this Hty Hp token thrown.
  assert (H : processToken (S fuel) token this = thrown).
  { subst token thrown. rewrite processToken_SelfclosingTagTk. cbv zeta.
    unfold case_SelfclosingTagTk, isEmptyLineMetaToken, getAttribute.
    cbn [token_attribs js_or String.eqb Ascii.eqb Bool.eqb andb].
    rewrite Hty. cbn [strict_eq]. cbv zeta. rewrite Hp.
    unfold js_test. cbn [text_tested].
    replace (re_fosterable_typeof "null") with false by reflexivity.
    reflexivity. }
  split; [exact H|].
  unfold onChunk. cbn [forEach]. rewrite bind_Throw with (e := TypeError).
  - rewrite H. reflexivity.
  - rewrite H. reflexivity.
Qed.

(** A bare [meta], followed by the end of the stream. *)
Lemma meta_without_typeof_throws_witness :
  let token := SelfclosingTagTk "meta" [] emptyDataAttribs in
  onChunk 1 [token; EOFTk] newTreeBuilder
  = mkOutcome (Throw TypeError) (set_tagId 3 newTreeBuilder)
      [Call token; SetTagId token 2].
Proof.
  intros token.
  exact (proj2 (meta_without_typeof_throws 0 [] emptyDataAttribs [EOFTk]
                  newTreeBuilder eq_refl eq_refl)).
Defined.

(** ** Streams without self-closing tags *)






(** ** Batches *)

Lemma onChunk_app fuel tokens1 tokens2 this :
  onChunk fuel (tokens1 ++ tokens2) this =
  match completion (onChunk fuel tokens1 this) with
  | Normal _ =>
      mkOutcome
        (completion (onChunk fuel tokens2 (this_after (onChunk fuel tokens1 this))))
        (this_after (onChunk fuel tokens2 (this_after (onChunk fuel tokens1 this))))
        (trace (onChunk fuel tokens1 this)
         ++ trace (onChunk fuel tokens2 (this_after (onChunk fuel tokens1 this))))
  | _ => onChunk fuel tokens1 this
  end.
Proof.
  unfold onChunk. rewrite forEach_app. unfold bind.
  destruct (forEach (processToken fuel) tokens1 this) as [[[]|e|] s1 tr1];
    reflexivity.
Qed.

(** X6.  Delivering a token stream in two chunks is the same as delivering
    it in one: the second chunk starts from the state the first one left,
    and the traces follow each other; when the first chunk throws, the
    second is never started. *)
Theorem onChunk_in_two_batches :
  forall fuel tokens1 tokens2 this,
    let r1 := onChunk fuel tokens1 this in
    let r2 := onChunk fuel tokens2 (this_after r1) in
    onChunk fuel (tokens1 ++ tokens2) this =
    match completion r1 with
    | Normal _ => mkOutcome (completion r2) (this_after r2) (trace r1 ++ trace r2)
    | _ => r1
    end.
Proof. intros fuel tokens1 tokens2 this. apply onChunk_app. Qed.

(** ** Termination *)

(** X7.  With more fuel than the token nests expansions, [processToken] returns
    or throws, and its outcome is the same for every such fuel. *)
Theorem processToken_terminates :
  forall fuel token this,
    (depth token < fuel)%nat ->
    (completion (processToken fuel token this) = Normal tt
     \/ completion (processToken fuel token this) = Throw TypeError)
    /\ forall fuel', (depth token < fuel')%nat ->
                     processToken fuel' token this = processToken fuel token this.
Proof.
  intros fuel token this H. split.
  - pose proof (@enough_fuel fuel token this H) as Hf.
    destruct (completion (processToken fuel token this)) as [[]|[]|];
      [left|right|contradiction]; reflexivity.
  - intros fuel' H'. apply fuel_irrelevant; assumption.
Qed.

(** An empty-line marker kept inside an empty-line marker. *)
Lemma processToken_terminates_witness :
  let inner := SelfclosingTagTk "meta" [KV_ "typeof" (VStr "mw:EmptyLine")]
                 (mkDA None Undefined None false None (Some [NlTk]) []) in
  let outer := SelfclosingTagTk "meta" [KV_ "typeof" (VStr "mw:EmptyLine")]
                 (mkDA None Undefined None false None (Some [inner]) []) in
  processToken 7 outer newTreeBuilder = processToken 3 outer newTreeBuilder.
Proof.
  intros inner outer.
  apply (proj2 (@processToken_terminates 3 outer newTreeBuilder
                  ltac:(simpl; lia))).
  simpl. lia.
Defined.

(** ** Resetting *)

(** X8.  A reset forgets the parse before it: its outcome, and the outcome of
    the parse that follows, are the same from every prior state.  The
    flag that [processToken] reads, [preceededByPre], and [lastToken] are
    not assigned by [resetState] itself; it is the [body] token that
    overwrites them. *)
Theorem reset_forgets_previous_parse :
  forall this1 this2 fuel tokens,
    resetState this1 = resetState this2
    /\ parse fuel tokens this1 = parse fuel tokens this2
    /\ this_after (resetState this1) = newTreeBuilder.
Proof.
  intros this1 this2 fuel tokens.
  rewrite !parse_spec. cbv zeta. unfold newTreeBuilder.
  rewrite !(resetState_spec this1), !(resetState_spec this2), !(resetState_spec blank).
  repeat split.
Qed.

(** ** Expansions *)

(** An outcome seen through the lines after the [switch] of a token that is
    neither text nor an open tag: they run only when the [case] returned. *)
Definition after_case (token : Token) (inner : Outcome unit) : Outcome unit :=
  match completion inner with
  | Normal _ =>
      mkOutcome (Normal tt)
        (set_lastToken (Some token)
           (set_preceededByPre false
              (set_haveTransclusionShadow false (this_after inner))))
        (trace inner)
  | _ => inner
  end.

Lemma bind_epilogue_selfclosing (m : M unit) tName attribs dataAttribs this :
  let token := SelfclosingTagTk tName attribs dataAttribs in
  (m ;; epilogue token) this = after_case token (m this).
Proof.
  intros token. unfold bind, after_case.
  destruct (m this) as [[[]|e|] s1 tr1]; cbn [completion this_after trace];
    try reflexivity.
  rewrite epilogue_spec. cbn [completion this_after trace].
  rewrite app_nil_r. reflexivity.
Qed.

Lemma bind_ret {A B : Type} (a : A) (f : A -> M B) this :
  bind (ret a) f this = f a this.
Proof. unfold bind, ret. simpl. destruct (f a this); reflexivity. Qed.

(** X9.  An empty-line marker is re-expanded: the tokens stored in it are
    processed in their order, right after the marker has taken its tag id,
    and the commands issued are theirs alone; the marker throws a
    [TypeError] when it stores no token list. *)
Theorem empty_line_reexpanded :
  forall fuel attribs dataAttribs this,
    lookup attribs "typeof" = Some (VStr "mw:EmptyLine") ->
    let token := SelfclosingTagTk "meta" attribs dataAttribs in
    let this1 := set_tagId (tagId this + 1) this in
    let r := processToken (S fuel) token this in
    match tokens dataAttribs with
    | Some toks =>
        let inner := after_case token (onChunk fuel toks this1) in
        r = mkOutcome (completion inner) (this_after inner)
              (Call token :: SetTagId token (tagId this) :: trace inner)
        /\ emitted (trace r) = emitted (trace (onChunk fuel toks this1))
        /\ calls (trace r) = token :: calls (trace (onChunk fuel toks this1))
    | None =>
        r = mkOutcome (Throw TypeError) this1
              [Call token; SetTagId token (tagId this)]
    end.
Proof.
  intros fuel attribs dataAttribs this Hty token this1 r. subst r token.
  rewrite processToken_SelfclosingTagTk. cbv zeta.
  rewrite bind_epilogue_selfclosing. cbv zeta.
  unfold case_SelfclosingTagTk, isEmptyLineMetaToken, getAttribute.
  cbn [token_attribs js_or String.eqb Ascii.eqb Bool.eqb andb].
  rewrite Hty. cbn [strict_eq String.eqb Ascii.eqb Bool.eqb andb].
  cbn [metadata token_dataAttribs js_or set_tmp tokens].
  destruct (tokens dataAttribs) as [toks|]; [|reflexivity].
  fold (onChunk fuel toks). fold this1.
  split; [reflexivity|].
  unfold after_case.
  destruct (onChunk fuel toks this1) as [[[]|e|] s1 tr1]; split; reflexivity.
Qed.

(** A marker that stands for a comment between two line breaks. *)
Lemma empty_line_reexpanded_witness :
  let toks := [NlTk; CommentTk "c"; NlTk] in
  let token := SelfclosingTagTk "meta" [KV_ "typeof" (VStr "mw:EmptyLine")]
                 (mkDA None Undefined None false None (Some toks) []) in
  emitted (trace (processToken 2 token newTreeBuilder))
  = emitted (trace (onChunk 1 toks (set_tagId 3 newTreeBuilder))).
Proof.
  intros toks token.
  exact (proj1 (proj2 (@empty_line_reexpanded 1
                         [KV_ "typeof" (VStr "mw:EmptyLine")]
                         (mkDA None Undefined None false None (Some toks) [])
                         newTreeBuilder eq_refl))).
Defined.

(** The attributes that the open [pre] of an unpacked html [pre] keeps. *)
Definition kept_by_pre (attr : KV) : bool :=
  negb (String.eqb (k attr) "content") && negb (String.eqb (k attr) "property").

(** The attributes and the metadata bags of the open and the close [pre]
    that an html [pre] is unpacked into. *)
Definition unpacked_attribs (this : TreeBuilder) (attribs : list KV)
    (dataAttribs : DataAttribs) : list KV :=
  filter kept_by_pre attribs
  ++ [KV_ "data-parsoid"
        (VJson (metadata this (SelfclosingTagTk "pre" attribs dataAttribs)))].

Definition unpacked_open_bag (this : TreeBuilder) (attribs : list KV)
    (dataAttribs : DataAttribs) : DataAttribs :=
  let bag := metadata this (SelfclosingTagTk "pre" attribs dataAttribs) in
  set_stx (Some "html")
    match tsr dataAttribs with
    | Some (tsr0, _) =>
        set_tsr (Some (tsr0, endpos dataAttribs)) (set_endpos Undefined bag)
    | None => set_endpos Undefined bag
    end.

Definition unpacked_close_bag (dataAttribs : DataAttribs) : DataAttribs :=
  match tsr dataAttribs with
  | Some (_, tsr1) =>
      set_tsr (Some (js_sub tsr1 6, tsr1)) (set_stx (Some "html") emptyDataAttribs)
  | None => set_stx (Some "html") emptyDataAttribs
  end.

Definition unpacked (this : TreeBuilder) (attribs : list KV)
    (dataAttribs : DataAttribs) (toks : list Token) : list Token :=
  TagTk "pre" (unpacked_attribs this attribs dataAttribs)
    (unpacked_open_bag this attribs dataAttribs)
  :: toks ++ [EndTagTk "pre" [] (unpacked_close_bag dataAttribs)].

(** The outcome of a self-closing tag that expands into a chunk whose
    processing, after the tag id is taken, has the outcome [inner]. *)
Definition expanded (token : Token) (id : Z) (inner : Outcome unit) : Outcome unit :=
  mkOutcome (completion (after_case token inner))
            (this_after (after_case token inner))
            (Call token :: SetTagId token id :: trace (after_case token inner)).

Lemma html_pre_unpacked_eq fuel attribs dataAttribs toks this :
  lookup attribs "property" = Some (VStr "mw:html") ->
  last_content attribs None = Some (VToks toks) ->
  processToken (S fuel) (SelfclosingTagTk "pre" attribs dataAttribs) this =
  expanded (SelfclosingTagTk "pre" attribs dataAttribs) (tagId this)
    (onChunk fuel (unpacked this attribs dataAttribs toks)
       (set_tagId (tagId this + 1) this)).
Proof.
  intros Hp Hc.
  unfold expanded, unpacked, unpacked_attribs, unpacked_open_bag,
    unpacked_close_bag.
  rewrite processToken_SelfclosingTagTk. cbv zeta.
  rewrite bind_epilogue_selfclosing. cbv zeta.
  unfold case_SelfclosingTagTk, isEmptyLineMetaToken, getAttribute.
  cbn [token_attribs js_or String.eqb Ascii.eqb Bool.eqb andb].
  rewrite Hp. cbn [js_truthy String.eqb negb andb js_match re_mw_html].
  unfold attributes. cbn [token_attribs js_or].
  rewrite last_content_app, Hc, filter_app.
  cbn [last_content filter KV_ k String.eqb Ascii.eqb Bool.eqb negb andb
       js_unshift].
  rewrite bind_ret. cbn iota. rewrite bind_ret.
  cbn [metadata token_dataAttribs js_or set_tmp set_endpos tsr endpos].
  destruct (tsr dataAttribs) as [[tsr0 tsr1]|]; reflexivity.
Qed.

(** X10.  An html [pre] is unpacked: a self-closing [pre] whose [property] is
    [mw:html] and whose (last) [content] attribute holds a token array is
    processed as an open [pre] tag, the tokens of the content, and a close
    [pre] tag.  The open tag keeps the attributes other than [content] and
    [property], and its source range runs from the start of the token to
    its [endpos]; the source range of the close tag is the last six
    characters of the token. *)
Theorem html_pre_unpacked :
  forall fuel attribs dataAttribs toks this,
    lookup attribs "property" = Some (VStr "mw:html") ->
    last_content attribs None = Some (VToks toks) ->
    let token := SelfclosingTagTk "pre" attribs dataAttribs in
    let bag := metadata this token in
    let kept := filter kept_by_pre attribs ++ [KV_ "data-parsoid" (VJson bag)] in
    let open_bag :=
      set_stx (Some "html")
        match tsr dataAttribs with
        | Some (tsr0, _) =>
            set_tsr (Some (tsr0, endpos dataAttribs)) (set_endpos Undefined bag)
        | None => set_endpos Undefined bag
        end in
    let close_bag :=
      match tsr dataAttribs with
      | Some (_, tsr1) =>
          set_tsr (Some (js_sub tsr1 6, tsr1)) (set_stx (Some "html") emptyDataAttribs)
      | None => set_stx (Some "html") emptyDataAttribs
      end in
    let chunk := TagTk "pre" kept open_bag :: toks ++ [EndTagTk "pre" [] close_bag] in
    let inner := after_case token
                   (onChunk fuel chunk (set_tagId (tagId this + 1) this)) in
    processToken (S fuel) token this =
    mkOutcome (completion inner) (this_after inner)
      (Call token :: SetTagId token (tagId this) :: trace inner).
Proof.
  intros fuel attribs dataAttribs toks this Hp Hc.
  exact (@html_pre_unpacked_eq fuel attribs dataAttribs toks this Hp Hc).
Qed.

(** An html [pre] with a newline and a text inside, at offsets 0 to 17. *)
Lemma html_pre_unpacked_witness :
  let attribs := [ KV_ "property" (VStr "mw:html");
                   KV_ "content" (VToks [NlTk; StringTk "a"]) ] in
  let bag := mkDA (Some (Num 0, Num 17)) (Num 5) None false None None [] in
  let r := processToken 2 (SelfclosingTagTk "pre" attribs bag) newTreeBuilder in
  completion r = Normal tt
  /\ map (fun t => (is_open_pre t, tsr (js_or (token_dataAttribs t) emptyDataAttribs)))
         (calls (trace r))
     = [ (false, Some (Num 0, Num 17)); (true, Some (Num 0, Num 5));
         (false, None); (false, None); (false, Some (Num 11, Num 17)) ].
Proof.
  intros attribs bag r.
  pose proof (@html_pre_unpacked 1 attribs bag [NlTk; StringTk "a"]
                newTreeBuilder eq_refl eq_refl) as H.
  cbv zeta in H. split.
  - exact (f_equal (fun r => completion r) H).
  - exact (f_equal (fun r => map (fun t => (is_open_pre t,
                      tsr (js_or (token_dataAttribs t) emptyDataAttribs)))
                      (calls (trace r))) H).
Defined.











(** ** Runs of text *)

Lemma onChunk_text_cons fuel t ts this :
  is_text t = true ->
  let s1 := set_lastToken (Some t)
              (set_preceededByPre false
                 (if shadow_due this t then set_haveTransclusionShadow true this
                  else this)) in
  let r := onChunk (S fuel) ts s1 in
  onChunk (S fuel) (t :: ts) this =
  mkOutcome (completion r) (this_after r)
    ((Call t :: Emit (text_command (preceededByPre this) t)
        :: if shadow_due this t then [Emit TransclusionShadow] else [])
     ++ trace r).
Proof.
  intros Ht s1 r. unfold onChunk. cbn [forEach]. unfold bind.
  rewrite (processToken_text fuel t this Ht). reflexivity.
Qed.

(** X13.  In any state, a run of text and newline tokens yields at most one
    shadow marker, and none at all when the adapter is outside a
    transclusion, or outside every table, or has already emitted the
    marker of the run: the commands are then the text commands alone. *)
Theorem at_most_one_shadow_per_run :
  forall fuel ts this,
    forallb is_text ts = true ->
    let cmds := emitted (trace (onChunk (S fuel) ts this)) in
    (List.length (filter is_TransclusionShadow cmds) <= 1)%nat
    /\ (inTransclusion this && (0 <? tableDepth this)
        && negb (haveTransclusionShadow this) = false ->
        cmds = text_commands (preceededByPre this) ts).
Proof.
  intros fuel ts this Ht cmds. subst cmds.
  assert (Hquiet : forall s,
             inTransclusion s && (0 <? tableDepth s)
             && negb (haveTransclusionShadow s) = false ->
             emitted (trace (onChunk (S fuel) ts s))
             = text_commands (preceededByPre s) ts).
  { intros s Hs.
    apply (run_without_shadow fuel ts s Ht).
    apply forallb_forall. intros t _. unfold shadow_due.
    apply negb_true_iff.
    destruct (inTransclusion s), (0 <? tableDepth s),
      (haveTransclusionShadow s), (is_String t); try reflexivity;
      discriminate Hs. }
  split; [|apply Hquiet].
  clear Hquiet. revert this. induction ts as [|t ts IH]; intros this.
  - simpl. lia.
  - simpl in Ht. apply andb_prop in Ht. destruct Ht as [Ht Hts].
    rewrite (@onChunk_text_cons fuel t ts this Ht). cbv zeta. cbn [trace].
    destruct (shadow_due this t) eqn:Hdue.
    + cbn [app emitted].
      set (s1 := set_lastToken _ _).
      assert (Hs1 : forallb (fun t => negb (shadow_due s1 t)) ts = true).
      { apply forallb_forall. intros t' _. unfold shadow_due. subst s1. simpl.
        rewrite !andb_false_r. reflexivity. }
      destruct (run_without_shadow fuel ts s1 Hts Hs1) as (_ & He & _).
      rewrite He. cbn [filter is_TransclusionShadow text_command].
      replace (is_TransclusionShadow TransclusionShadow) with true by reflexivity.
      rewrite text_commands_no_shadow. simpl. lia.
    + cbn [app emitted].
      cbn [filter is_TransclusionShadow text_command].
      apply IH. exact Hts.
Qed.

(** Text right after the reset, outside any transclusion. *)
Lemma at_most_one_shadow_per_run_witness :
  emitted (trace (onChunk 1 [StringTk "a"; NlTk; StringTk "b"] newTreeBuilder))
  = [Characters "a"; Characters nl; Characters "b"].
Proof.
  exact (proj2 (@at_most_one_shadow_per_run 0 [StringTk "a"; NlTk; StringTk "b"]
                  newTreeBuilder eq_refl) eq_refl).
Defined.

(** ** The end of the stream *)

(** The events of [onEnd] that are not tokens for the tree builder. *)
Inductive EndEvent :=
| LogError (message : string)
| EmitDocument
| EmitEnd.

(** Truthiness of [this.lastToken]: [undefined] and the empty text are
    falsy. *)
Definition token_truthy (t : option Token) : bool :=
  match t with
  | None => false
  | Some (StringTk s) => negb (String.eqb s "")
  | Some _ => true
  end.

Definition is_EOFTk (t : option Token) : bool :=
  match t with
  | Some EOFTk => true
  | _ => false
  end.

(** [TreeBuilder.prototype.onEnd]: the events for the environment and the
    consumer, and the reset that follows them. *)
Definition onEnd (this : TreeBuilder) : list EndEvent * Outcome unit :=
  ((if token_truthy (lastToken this) && negb (is_EOFTk (lastToken this))
    then [LogError "EOFTk was lost in page"]
    else [])
   ++ [EmitDocument; EmitEnd],
   resetState this).

Lemma onChunk_singleton fuel t this :
  onChunk fuel [t] this = processToken fuel t this.
Proof.
  unfold onChunk. cbn [forEach]. unfold bind, ret.
  destruct (processToken fuel t this) as [[[]|e|] s tr]; simpl;
    rewrite ?app_nil_r; reflexivity.
Qed.

Lemma lastToken_after_token fuel t this :
  completion (processToken fuel t this) = Normal tt ->
  lastToken (this_after (processToken fuel t this)) = Some t.
Proof.
  destruct fuel as [|fuel]; [discriminate|].
  rewrite processToken_S. cbv zeta. cbn [completion this_after].
  unfold bind at 1 2.
  match goal with |- context [completion (?m ?s)] =>
    destruct (m s) as [[[]|e|] s2 tr2] end;
    cbn [completion this_after]; try discriminate.
  intros _. rewrite epilogue_spec. reflexivity.
Qed.

Lemma lastToken_after_chunk fuel ts t this :
  completion (onChunk fuel (ts ++ [t]) this) = Normal tt ->
  lastToken (this_after (onChunk fuel (ts ++ [t]) this)) = Some t.
Proof.
  rewrite onChunk_app.
  generalize (this_after (onChunk fuel ts this)).
  destruct (onChunk fuel ts this) as [[[]|e|] s1 tr1];
    cbn [completion this_after trace]; try discriminate.
  intros s. rewrite onChunk_singleton. apply lastToken_after_token.
Qed.

(** X14.  [onEnd] reports a lost end of stream exactly when the last token
    processed was neither the end-of-stream token nor an empty text (which
    is falsy); it then hands over the document, signals the end, and
    resets the adapter to the state of a new one.  An adapter that has
    processed no token since its reset reports a lost end of stream too,
    its last token being the [body] tag of the reset. *)
Theorem onEnd_reports_lost_EOFTk :
  forall fuel ts t this,
    completion (onChunk fuel (ts ++ [t]) this) = Normal tt ->
    let ended := onEnd (this_after (onChunk fuel (ts ++ [t]) this)) in
    fst ended
    = (if token_truthy (Some t) && negb (is_EOFTk (Some t))
       then [LogError "EOFTk was lost in page"] else [])
      ++ [EmitDocument; EmitEnd]
    /\ this_after (snd ended) = newTreeBuilder
    /\ fst (onEnd newTreeBuilder)
       = [LogError "EOFTk was lost in page"; EmitDocument; EmitEnd].
Proof.
  intros fuel ts t this H ended. subst ended. unfold onEnd. cbn [fst snd].
  rewrite (lastToken_after_chunk fuel ts t this H).
  split; [reflexivity|]. split; [|reflexivity].
  unfold newTreeBuilder. rewrite !resetState_spec. reflexivity.
Qed.

(** A paragraph whose end of stream arrives, and one whose does not. *)
Lemma onEnd_reports_lost_EOFTk_witness :
  fst (onEnd (this_after (onChunk 1 ([StringTk "a"] ++ [EOFTk]) newTreeBuilder)))
  = [EmitDocument; EmitEnd]
  /\ fst (onEnd (this_after (onChunk 1 ([EOFTk] ++ [StringTk "a"]) newTreeBuilder)))
     = [LogError "EOFTk was lost in page"; EmitDocument; EmitEnd].
Proof.
  split.
  - exact (proj1 (@onEnd_reports_lost_EOFTk 1 [StringTk "a"] EOFTk
                    newTreeBuilder eq_refl)).
  - exact (proj1 (@onEnd_reports_lost_EOFTk 1 [EOFTk] (StringTk "a")
                    newTreeBuilder eq_refl)).
Defined.

(** * Titles and namespaces

    A shallow embedding of the [Title] and [Namespace] classes (the second
    source file).  The environment that every title carries is a record of
    the functions and tables that the two classes use; the two functions
    of [Util.js], which is not among the sources, are variables of the
    section. *)

Module Title.

(** ** Strings *)

(** [s.split(c)] for a separator of one character. *)
Fixpoint split (c : ascii) (s : string) : list string :=
  match s with
  | EmptyString => [EmptyString]
  | String a s' =>
      if Ascii.eqb a c then EmptyString :: split c s'
      else match split c s' with
           | part :: parts => String a part :: parts
           | [] => [String a EmptyString]
           end
  end.

(** [s.split(c, limit)] *)
Definition split_limit (c : ascii) (s : string) (limit : nat) : list string :=
  firstn limit (split c s).

(** [s.substr(n)] *)
Fixpoint substr (s : string) (n : nat) {struct n} : string :=
  match n, s with
  | O, _ => s
  | S n', String _ s' => substr s' n'
  | S _, EmptyString => EmptyString
  end.

(** [s.replace(c, d)] for a pattern of one character: the first
    occurrence only. *)
Fixpoint replace_first (c d : ascii) (s : string) : string :=
  match s with
  | EmptyString => EmptyString
  | String a s' =>
      if Ascii.eqb a c then String d s' else String a (replace_first c d s')
  end.

(** [s.replace(/c/g, d)]: every occurrence. *)
Fixpoint replace_all (c d : ascii) (s : string) : string :=
  match s with
  | EmptyString => EmptyString
  | String a s' =>
      String (if Ascii.eqb a c then d else a) (replace_all c d s')
  end.

(** The pattern of a relative title: anchored at the start, a hash mark, a
    slash, or two dots and a slash. *)
Definition is_relative (s : string) : bool :=
  prefix "#" s || prefix "/" s || prefix "../" s.

(** Truthiness of a string. *)
Definition nonempty (s : string) : bool := negb (String.eqb s "").

(** ** The environment *)

Record Page := mkPage {
  name : string;
  page_ns : Z;
  relativeLinkPrefix : string
}.

(** [env.conf.wiki] *)
Record Wiki := mkWiki {
  namespacesWithSubpages : Z -> bool;
  namespaceIds : string -> option Z;
  namespaceNames : Z -> option string;
  canonicalNamespaces_file : Z;
  canonicalNamespaces_category : Z
}.

Record Env := mkEnv {
  resolveTitle : string -> Z -> string;
  normalizeTitle : string -> string;
  wiki : Wiki;
  page : option Page
}.

(** ** The classes *)

Record Namespace := mkNamespace {
  ns_env : Env;
  id : Z
}.

Record Title := mkTitle {
  key : string;
  ns : Namespace;
  nskey : string;
  env : Env
}.

Section Util.

Variable normalizeNamespaceName : string -> string.
Variable sanitizeTitleURI : string -> string.

(** [new Namespace(id, env)] *)
Definition newNamespace (id : Z) (env : Env) : Namespace := mkNamespace env id.

(** [new Title(key, ns, nskey, env)] *)
Definition newTitle (key : string) (ns : Z) (nskey : string) (env : Env) : Title :=
  let this_key := resolveTitle env key ns in
  (* If the title is relative, the resolved key will contain the namespace
     from env.page.name, so we need to take it out. *)
  let this_key :=
    if namespacesWithSubpages (wiki env) ns && is_relative key
    then
      let keyParts := split_limit ":" this_key 2 in
      match namespaceIds (wiki env) (normalizeNamespaceName (nth 0 keyParts "")) with
      | Some n => if Z.eqb n ns then last keyParts "" else this_key
      | None => this_key
      end
    else this_key in
  mkTitle this_key (newNamespace ns env) nskey env.

(** [Title.fromPrefixedText] *)
Definition fromPrefixedText (env : Env) (text : string) : Title :=
  let text := normalizeTitle env text in
  let nsText := nth 0 (split_limit ":" text 1) "" in
  if nonempty nsText && negb (String.eqb nsText text)
  then
    match namespaceIds (wiki env) (normalizeNamespaceName nsText) with
    | Some ns => newTitle (substr text (String.length nsText + 1)) ns nsText env
    | None => newTitle text 0 "" env
    end
  else
    match page env with
    | Some p =>
        if is_relative text
        then (* If the link is relative, use the page's namespace. *)
          newTitle text (page_ns p) "" env
        else newTitle text 0 "" env
    | None => newTitle text 0 "" env
    end.

(** [Namespace.prototype.isFile] and [isCategory] *)
Definition isFile (this : Namespace) : bool :=
  Z.eqb (id this) (canonicalNamespaces_file (wiki (ns_env this))).

Definition isCategory (this : Namespace) : bool :=
  Z.eqb (id this) (canonicalNamespaces_category (wiki (ns_env this))).

(** [Namespace.prototype.getDefaultName]; [None] is [undefined]. *)
Definition getDefaultName (this : Namespace) : option string :=
  match namespaceNames (wiki (ns_env this)) (id this) with
  | Some ns => if nonempty ns then Some (replace_first " " "_" ns) else Some ns
  | None => None
  end.

(** Truthiness of a name or [undefined]. *)
Definition name_truthy (n : option string) : bool :=
  match n with
  | Some s => nonempty s
  | None => false
  end.

(** [Title.prototype.makeLink]; [None] is the [TypeError] of reading
    [relativeLinkPrefix] off a missing page. *)
Definition makeLink (this : Title) : option string :=
  (* XXX: links always point to the canonical namespace name. *)
  if false && nonempty (nskey this)
  then
    match page (env this) with
    | Some p =>
        Some (sanitizeTitleURI
                (relativeLinkPrefix p ++ nskey this ++ ":" ++ key this)%string)
    | None => None
    end
  else
    match page (env this) with
    | Some p =>
        let l := relativeLinkPrefix p in
        let ns := getDefaultName (ns this) in
        let l := if name_truthy ns
                 then (l ++ match ns with Some n => n | None => "" end ++ ":")%string
                 else l in
        Some (sanitizeTitleURI (l ++ key this)%string)
    | None => None
    end.

(** [Title.prototype.getPrefixedText] *)
Definition getPrefixedText (this : Title) : string :=
  let text := nth 0 (split "#" (key this)) "" in  (* drop the fragment *)
  let ns := getDefaultName (ns this) in
  let text := if name_truthy ns
              then (match ns with Some n => n | None => "" end ++ ":" ++ text)%string
              else text in
  replace_all "_" " " text.

(** ** Properties *)

Definition lacks (c : ascii) (s : string) : bool :=
  all_chars (fun a => negb (Ascii.eqb a c)) s.

Lemma split_lacking c s : lacks c s = true -> split c s = [s].
Proof.
  induction s as [|a s IH]; intros H; [reflexivity|].
  simpl in H. apply andb_prop in H. destruct H as [Ha Hs].
  apply negb_true_iff in Ha. cbn [split]. rewrite Ha, (IH Hs). reflexivity.
Qed.

Lemma split_at_first c p rest :
  lacks c p = true ->
  split c (p ++ String c rest) = p :: split c rest.
Proof.
  induction p as [|a p IH]; intros H.
  - cbn [String.append split]. rewrite Ascii.eqb_refl. reflexivity.
  - simpl in H. apply andb_prop in H. destruct H as [Ha Hp].
    apply negb_true_iff in Ha. cbn [String.append split].
    rewrite Ha, (IH Hp). reflexivity.
Qed.

Lemma substr_past p c rest :
  substr (p ++ String c rest) (String.length p + 1) = rest.
Proof.
  rewrite Nat.add_1_r. induction p as [|a p IH]; [reflexivity|exact IH].
Qed.

Lemma eqb_longer p c rest : String.eqb p (p ++ String c rest) = false.
Proof.
  induction p as [|a p IH]; [reflexivity|].
  cbn [String.append String.eqb]. rewrite Ascii.eqb_refl. exact IH.
Qed.

Lemma nonempty_true s : s <> "" -> nonempty s = true.
Proof. intros H. destruct s; [contradiction|reflexivity]. Qed.

Lemma fromPrefixedText_prefix e text p rest :
  normalizeTitle e text = (p ++ ":" ++ rest)%string ->
  lacks ":" p = true ->
  p <> "" ->
  fromPrefixedText e text =
  match namespaceIds (wiki e) (normalizeNamespaceName p) with
  | Some n => newTitle rest n p e
  | None => newTitle (p ++ ":" ++ rest)%string 0 "" e
  end.
Proof.
  intros Ht Hp Hne. unfold fromPrefixedText. rewrite Ht.
  unfold split_limit. cbn [String.append].
  rewrite split_at_first by exact Hp. cbn [firstn nth].
  rewrite nonempty_true by exact Hne. rewrite eqb_longer. cbn [negb andb].
  rewrite substr_past. reflexivity.
Qed.


(** X16.  A text without a colon, or one that begins with a colon, has no
    namespace prefix: its title has an empty [nskey] and is constructed
    from the whole text, in the namespace of the page when there is a page
    and the text is relative, and in the main namespace otherwise. *)
Theorem fromPrefixedText_without_prefix :
  forall env text,
    lacks ":" (normalizeTitle env text) || prefix ":" (normalizeTitle env text)
    = true ->
    let text' := normalizeTitle env text in
    fromPrefixedText env text =
    match page env with
    | Some p => if is_relative text' then newTitle text' (page_ns p) "" env
                else newTitle text' 0 "" env
    | None => newTitle text' 0 "" env
    end.
Proof.
  intros env text H text'. unfold fromPrefixedText. fold text'.
  fold text' in H. apply orb_prop in H. destruct H as [H|H].
  - unfold split_limit. rewrite split_lacking by exact H. cbn [firstn nth].
    rewrite String.eqb_refl, andb_false_r. reflexivity.
  - destruct text' as [|a t]; [reflexivity|].
    cbn [prefix] in H. destruct (Ascii.ascii_dec ":" a) as [<-|]; [|discriminate].
    unfold split_limit. cbn [split Ascii.eqb Bool.eqb firstn nth nonempty
                             String.eqb negb andb].
    reflexivity.
Qed.

Lemma split_not_nil c s : split c s <> [].
Proof.
  destruct s as [|a s]; [discriminate|]. cbn [split].
  destruct (Ascii.eqb a c); [discriminate|].
  destruct (split c s); discriminate.
Qed.

(** X17.  The constructor takes the namespace out of a resolved relative key:
    in a namespace with subpages, when the key given is relative and the
    resolved key begins with a name of that namespace and a colon, the key
    of the title is what follows that colon, up to the next colon if there
    is one (what comes after a second colon is dropped).  Otherwise, when
    the namespace has no subpages or the key given is not relative, the key
    of the title is the resolved key. *)
Theorem newTitle_takes_namespace_out :
  forall env k n nk,
    (forall p q,
        namespacesWithSubpages (wiki env) n = true ->
        is_relative k = true ->
        resolveTitle env k n = (p ++ ":" ++ q)%string ->
        lacks ":" p = true ->
        namespaceIds (wiki env) (normalizeNamespaceName p) = Some n ->
        key (newTitle k n nk env) = nth 0 (split ":" q) ""
        /\ (lacks ":" q = true -> key (newTitle k n nk env) = q))
    /\ (namespacesWithSubpages (wiki env) n && is_relative k = false ->
        key (newTitle k n nk env) = resolveTitle env k n)
    /\ nskey (newTitle k n nk env) = nk
    /\ id (ns (newTitle k n nk env)) = n.
Proof.
  intros env k n nk. split; [|split; [|split; reflexivity]].
  - intros p q Hs Hr Hk Hp Hn.
    assert (H : key (newTitle k n nk env) = nth 0 (split ":" q) "").
    { unfold newTitle. cbn [key]. rewrite Hs, Hr, Hk. cbn [andb].
      unfold split_limit. cbn [String.append].
      rewrite split_at_first by exact Hp.
      destruct (split ":" q) as [|h parts] eqn:E;
        [exfalso; exact (split_not_nil _ _ E)|].
      cbn [firstn nth]. rewrite Hn, Z.eqb_refl. reflexivity. }
    split; [exact H|].
    intros Hq. rewrite H, split_lacking by exact Hq. reflexivity.
  - intros H. unfold newTitle. cbn [key]. rewrite H. reflexivity.
Qed.

Lemma replace_all_lacks c d s :
  Ascii.eqb d c = false -> lacks c (replace_all c d s) = true.
Proof.
  intros H. induction s as [|a s IH]; [reflexivity|].
  cbn [replace_all]. unfold lacks in *. cbn [all_chars]. rewrite IH.
  destruct (Ascii.eqb a c) eqn:E; rewrite ?H, ?E; reflexivity.
Qed.

(** X18.  The prefixed text of a title never has an underscore; for a title in
    a namespace without a default name it is the key with its fragment
    dropped and its underscores turned into spaces. *)
Theorem getPrefixedText_without_underscores :
  forall t,
    lacks "_" (getPrefixedText t) = true
    /\ (name_truthy (getDefaultName (ns t)) = false ->
        forall text fragment,
          key t = (text ++ "#" ++ fragment)%string ->
          lacks "#" text = true ->
          getPrefixedText t = replace_all "_" " " text).
Proof.
  intros t. split.
  - unfold getPrefixedText. apply replace_all_lacks. reflexivity.
  - intros Hn text fragment Hk Ht. unfold getPrefixedText. rewrite Hn, Hk.
    cbn [String.append]. rewrite split_at_first by exact Ht. reflexivity.
Qed.

Lemma replace_first_at c d a b :
  lacks c a = true ->
  replace_first c d (a ++ String c b) = (a ++ String d b)%string.
Proof.
  induction a as [|x a IH]; intros H.
  - cbn [String.append replace_first]. rewrite Ascii.eqb_refl. reflexivity.
  - simpl in H. apply andb_prop in H. destruct H as [Hx Ha].
    apply negb_true_iff in Hx. cbn [String.append replace_first].
    rewrite Hx, (IH Ha). reflexivity.
Qed.

Lemma replace_first_lacking c d s :
  lacks c s = true -> replace_first c d s = s.
Proof.
  induction s as [|x s IH]; intros H; [reflexivity|].
  simpl in H. apply andb_prop in H. destruct H as [Hx Hs].
  apply negb_true_iff in Hx. cbn [replace_first]. rewrite Hx, (IH Hs).
  reflexivity.
Qed.

(** X19.  The default name of a namespace is its configured name with the first
    space, and only the first, turned into an underscore: whatever follows
    that space is returned as it is.  A name without a space is returned
    unchanged, and a namespace without a configured name has none. *)
Theorem getDefaultName_first_space_only :
  forall this,
    (forall a b,
        namespaceNames (wiki (ns_env this)) (id this) = Some (a ++ " " ++ b)%string ->
        lacks " " a = true ->
        getDefaultName this = Some (a ++ "_" ++ b)%string)
    /\ (forall n,
           namespaceNames (wiki (ns_env this)) (id this) = Some n ->
           lacks " " n = true ->
           getDefaultName this = Some n)
    /\ (namespaceNames (wiki (ns_env this)) (id this) = None ->
        getDefaultName this = None).
Proof.
  intros this. split; [|split].
  - intros a b Hn Ha. unfold getDefaultName. rewrite Hn.
    cbn [String.append]. rewrite replace_first_at by exact Ha.
    destruct a; reflexivity.
  - intros n Hn Hl. unfold getDefaultName. rewrite Hn.
    rewrite replace_first_lacking by exact Hl.
    destruct (nonempty n); reflexivity.
  - intros Hn. unfold getDefaultName. rewrite Hn. reflexivity.
Qed.

Lemma append_assoc (a b c : string) :
  ((a ++ b) ++ c = a ++ (b ++ c))%string.
Proof.
  induction a as [|x a IH]; [reflexivity|].
  cbn [String.append]. rewrite IH. reflexivity.
Qed.

(** X20.  The link of a title made from a prefixed text points to the default
    name of the namespace that the prefix names, not to the prefix as it
    was written: it is the sanitized concatenation of the relative link
    prefix of the page, that default name, a colon, and the key.  And no
    link depends on the [nskey] of its title. *)
Theorem makeLink_uses_default_name :
  forall e text p rest n pg dn,
    normalizeTitle e text = (p ++ ":" ++ rest)%string ->
    lacks ":" p = true ->
    p <> "" ->
    namespaceIds (wiki e) (normalizeNamespaceName p) = Some n ->
    page e = Some pg ->
    getDefaultName (newNamespace n e) = Some dn ->
    dn <> "" ->
    makeLink (fromPrefixedText e text)
    = Some (sanitizeTitleURI
              (relativeLinkPrefix pg ++ dn ++ ":" ++ key (newTitle rest n p e))%string)
    /\ forall t nk, makeLink (mkTitle (key t) (ns t) nk (env t)) = makeLink t.
Proof.
  intros e text p rest n pg dn Ht Hp Hne Hn Hpg Hdn Hdne. split.
  - rewrite (@fromPrefixedText_prefix e text p rest Ht Hp Hne), Hn.
    unfold makeLink. cbn [andb].
    change (env (newTitle rest n p e)) with e.
    change (ns (newTitle rest n p e)) with (newNamespace n e).
    rewrite Hpg, Hdn. cbn [name_truthy]. rewrite nonempty_true by exact Hdne.
    rewrite !append_assoc. reflexivity.
  - intros t nk. reflexivity.
Qed.

(** A wiki with one namespace, and the identity for the other functions. *)
Definition sample_wiki : Wiki :=
  mkWiki (fun n => Z.eqb n 2)
         (fun s => if String.eqb s "user" then Some 2 else None)
         (fun n => if Z.eqb n 2 then Some "User talk page" else None)
         6 14.

Definition sample_env : Env :=
  mkEnv (fun key _ => key) (fun s => s) sample_wiki
        (Some (mkPage "Main" 0 "./")).

End Util.



(** A relative text without a colon, on a page of the main namespace. *)
Lemma fromPrefixedText_without_prefix_witness :
  let lower := fun s => if String.eqb s "User" then "user" else s in
  fromPrefixedText lower sample_env "/sub"
  = newTitle lower "/sub" 0 "" sample_env.
Proof.
  intros lower.
  exact (@fromPrefixedText_without_prefix lower sample_env "/sub" eq_refl).
Defined.

(** A relative subpage link resolved to a user page whose name has a
    colon in it. *)
Lemma newTitle_takes_namespace_out_witness :
  let lower := fun s => if String.eqb s "User" then "user" else s in
  let env := mkEnv (fun key _ => ("User:A/007 : B" ++ key)%string) (fun s => s)
               sample_wiki (Some (mkPage "User:A/007 : B" 2 "./")) in
  key (newTitle lower "/x" 2 "" env) = "A/007 ".
Proof.
  intros lower env.
  exact (proj1 (proj1 (@newTitle_takes_namespace_out lower env "/x" 2 "")
                  "User" "A/007 : B/x" eq_refl eq_refl eq_refl eq_refl eq_refl)).
Defined.

(** A key with a fragment, in a namespace without a name. *)
Lemma getPrefixedText_without_underscores_witness :
  getPrefixedText (mkTitle "A_b#c_d" (mkNamespace sample_env 0) "" sample_env)
  = "A b".
Proof.
  exact (proj2 (getPrefixedText_without_underscores
                  (mkTitle "A_b#c_d" (mkNamespace sample_env 0) "" sample_env))
           eq_refl "A_b" "c_d" eq_refl eq_refl).
Defined.

(** A namespace name of three words. *)
Lemma getDefaultName_first_space_only_witness :
  getDefaultName (mkNamespace sample_env 2) = Some "User_talk page".
Proof.
  exact (proj1 (getDefaultName_first_space_only (mkNamespace sample_env 2))
           "User" "talk page" eq_refl eq_refl).
Defined.

(** A link through an alias of the namespace. *)
Lemma makeLink_uses_default_name_witness :
  let lower := fun s => if String.eqb s "U" then "user" else s in
  makeLink (fun s => s) (fromPrefixedText lower sample_env "U:A")
  = Some "./User_talk page:A".
Proof.
  intros lower.
  exact (proj1 (@makeLink_uses_default_name lower (fun s => s) sample_env "U:A"
                  "U" "A" 2 (mkPage "Main" 0 "./") "User_talk page"
                  eq_refl eq_refl ltac:(discriminate) eq_refl eq_refl eq_refl
                  ltac:(discriminate))).
Defined.

End Title.
